(** * SafeCopy: the Flask file-exchange server ([Flask_Server/server.py])

    A shallow embedding of the three request handlers of [server.py]
    ([upload_file], [list_files], [get_file]) together with the library
    calls they are made of: [os.getcwd], [os.path.join], [os.listdir],
    [os.path.isfile], [FileStorage.save], [print] and
    [send_from_directory] (with werkzeug's [safe_join] and
    [posixpath.normpath]).

    Modelling choices.
    - Paths are Python [str] values, here [string]; the operating system
      resolves them component by component against a directory tree.
    - The directory tree is a finite map from canonical absolute paths
      (lists of names, the root being the empty list) to entries: a
      regular file with its bytes, a directory, or a symbolic link with
      its target.  Resolution follows symbolic links (at most 40 of them)
      and refuses a path with a NUL byte, a component of more than 255
      bytes and a path of 4096 bytes or more, as Linux does.  There are
      no permissions and no limit on space; a POSIX host is assumed
      ([os.sep] is [/], [os.path.altsep] is [None]).
    - A [str] is kept as the bytes of its UTF-8 encoding.  Standard output
      is open; its encoding is part of the state, and [print] raises when
      the encoding cannot take the line.
    - A handler is a computation over the process state (directory tree,
      working directory, standard output) that returns a value or raises.
      Flask turns a raised [NotFound] into its default 404 response, a
      [BadRequestKeyError] into its default 400 response and any other
      exception into its default 500 response.
    - A download request is a plain GET: no [Range] and no conditional
      headers. *)

From Stdlib Require Import ZArith Ascii.
From stdpp Require Import base option list strings gmap.

Local Open Scope Z_scope.

(** ** Python strings as the path functions use them *)

Module Str.

Definition sep : ascii := "/"%char.

(** [s.startswith(p)] *)
Fixpoint startswith (s p : string) : bool :=
  match p with
  | EmptyString => true
  | String a p' =>
      match s with
      | EmptyString => false
      | String b s' => Ascii.eqb a b && startswith s' p'
      end
  end.

(** [s.endswith('/')] *)
Fixpoint endswith_sep (s : string) : bool :=
  match s with
  | EmptyString => false
  | String c EmptyString => Ascii.eqb c sep
  | String _ s' => endswith_sep s'
  end.

(** [s.split('/')]: never empty, [''.split('/') = ['']]. *)
Fixpoint split (s : string) : list string :=
  match s with
  | EmptyString => [EmptyString]
  | String c s' =>
      if Ascii.eqb c sep then EmptyString :: split s'
      else match split s' with
           | [] => [String c EmptyString]
           | w :: ws => String c w :: ws
           end
  end.

(** ['/'.join(comps)] *)
Definition join (comps : list string) : string := String.concat "/" comps.

(** ['/' not in s] *)
Fixpoint sepfree (s : string) : bool :=
  match s with
  | EmptyString => true
  | String c s' => negb (Ascii.eqb c sep) && sepfree s'
  end.

End Str.

(** ** [posixpath] *)

Module posixpath.

(** [posixpath.isabs] *)
Definition isabs (s : string) : bool := Str.startswith s "/".

(** [posixpath.join(a, b)] *)
Definition join (a b : string) : string :=
  if Str.startswith b "/" then b
  else if bool_decide (a = "") || Str.endswith_sep a then a +:+ b
  else a +:+ "/" +:+ b.

(** [posixpath.basename]: what follows the last separator. *)
Definition basename (p : string) : string := default "" (last (Str.split p)).

(** The number of leading slashes [normpath] keeps: none, one, or two
    (exactly two leading slashes are kept, three or more become one). *)
Definition initial_slashes (p : string) : nat :=
  if Str.startswith p "/" then
    if Str.startswith p "//" && negb (Str.startswith p "///") then 2%nat
    else 1%nat
  else 0%nat.

(** One round of the loop of [normpath] over the components. *)
Definition normpath_step (slashes : nat) (new_comps : list string)
    (comp : string) : list string :=
  if bool_decide (comp = "") || bool_decide (comp = ".") then new_comps
  else if negb (bool_decide (comp = ".."))
          || (bool_decide (slashes = 0%nat) && bool_decide (new_comps = []))
          || (negb (bool_decide (new_comps = []))
              && bool_decide (last new_comps = Some ".."))
       then new_comps ++ [comp]
  else if negb (bool_decide (new_comps = [])) then removelast new_comps
  else new_comps.

Definition normpath_comps (slashes : nat) (comps : list string) : list string :=
  fold_left (normpath_step slashes) comps [].

Fixpoint slashes_string (n : nat) : string :=
  match n with O => "" | S n' => String Str.sep (slashes_string n') end.

(** [posixpath.normpath] *)
Definition normpath (p : string) : string :=
  if bool_decide (p = "") then "."
  else
    let slashes := initial_slashes p in
    let comps := normpath_comps slashes (Str.split p) in
    let r := slashes_string slashes +:+ Str.join comps in
    if bool_decide (r = "") then "." else r.

End posixpath.

(** ** The process state: directory tree, working directory, output *)

Inductive entry :=
  | File (content : list Byte.byte)
  | Dir
  | Link (target : string).   (* a symbolic link *)

Global Instance byte_eq_dec : EqDecision Byte.byte.
Proof.
  intros x y. destruct (Byte.eqb x y) eqn:E.
  - left. by apply Byte.byte_dec_bl.
  - right. intros ->. by rewrite Byte.byte_dec_lb in E.
Defined.

Global Instance entry_eq_dec : EqDecision entry.
Proof. solve_decision. Defined.

(** [sys.stdout.encoding] *)
Inductive codec := UTF8 | ASCII.

Record state := State {
  files : gmap (list string) entry;
  cwd : list string;
  stdout : list string;
  stdout_encoding : codec
}.

Inductive exn :=
  | NotFound             (* werkzeug.exceptions.NotFound *)
  | BadRequestKeyError   (* werkzeug.exceptions.BadRequestKeyError *)
  | OSError              (* FileNotFoundError, NotADirectoryError,
                            IsADirectoryError, ENAMETOOLONG, ELOOP *)
  | ValueError           (* embedded null byte *)
  | UnicodeEncodeError.

Inductive result (A : Type) :=
  | Ok (a : A)
  | Raise (e : exn).
Arguments Ok {A} a.
Arguments Raise {A} e.

(** Computations over the process state that may raise. *)
Definition M (A : Type) : Type := state → result A * state.

Definition ret {A} (a : A) : M A := λ s, (Ok a, s).
Definition raise {A} (e : exn) : M A := λ s, (Raise e, s).
Definition bind {A B} (m : M A) (k : A → M B) : M B :=
  λ s, match m s with
       | (Ok a, s') => k a s'
       | (Raise e, s') => (Raise e, s')
       end.

Notation "x <- m ;; k" := (bind m (λ x, k))
  (at level 100, m at next level, right associativity).
Notation "m ;;; k" := (bind m (λ _, k))
  (at level 100, right associativity).

(** ** The operating system's view of a path *)

Module os.

Definition is_dir (fs : gmap (list string) entry) (p : list string) : bool :=
  match fs !! p with Some Dir => true | _ => false end.

(** Following one component from directory [cur]. *)
Definition step (cur : list string) (comp : string) : list string :=
  if bool_decide (comp = "") || bool_decide (comp = ".") then cur
  else if bool_decide (comp = "..") then removelast cur
  else cur ++ [comp].

(** The limits of Linux. *)
Definition NAME_MAX : nat := 255.
Definition PATH_MAX : nat := 4096.
Definition MAXSYMLINKS : nat := 40.

(** ['\0' in p] *)
Fixpoint has_nul (p : string) : bool :=
  match p with
  | EmptyString => false
  | String c p' => Ascii.eqb c Ascii.zero || has_nul p'
  end.

(** Path resolution: every component is looked up in a directory, the
    last one need not exist.  A component that is a symbolic link is
    replaced by its target, which is followed from the directory of the
    link, or from the root when it is absolute; [budget] is the number of
    links that may still be followed. *)
Fixpoint follow (fs : gmap (list string) entry) (budget : nat)
    {struct budget} : list string → list string → option (list string) :=
  fix go (cur : list string) (comps : list string) {struct comps}
      : option (list string) :=
    match comps with
    | [] => Some cur
    | comp :: rest =>
        if negb (is_dir fs cur) then None   (* ENOENT, ENOTDIR *)
        else if negb (String.length comp <=? NAME_MAX)%nat then
          None                              (* ENAMETOOLONG *)
        else
          let next := step cur comp in
          match fs !! next with
          | Some (Link target) =>
              match budget with
              | O => None                   (* ELOOP *)
              | S budget' =>
                  follow fs budget'
                    (if posixpath.isabs target then [] else cur)
                    (Str.split target ++ rest)
              end
          | _ => go next rest
          end
    end.

(** What the system calls accept as a path at all. *)
Definition path_ok (p : string) : bool :=
  negb (bool_decide (p = "")) && negb (has_nul p)
  && (String.length p <? PATH_MAX)%nat.

Definition resolve (s : state) (p : string) : option (list string) :=
  if path_ok p then
    follow (files s) MAXSYMLINKS (if posixpath.isabs p then [] else cwd s)
      (Str.split p)
  else None.

(** The absolute path string of an entry of the tree. *)
Definition canonical (p : list string) : string := "/" +:+ Str.join p.

(** [os.getcwd()] *)
Definition getcwd_string (s : state) : string := canonical (cwd s).
Definition getcwd : M string := λ s, (Ok (getcwd_string s), s).

(** [os.path.isfile]: false on every error. *)
Definition is_regular (s : state) (p : string) : bool :=
  match resolve s p with
  | Some q => match files s !! q with Some (File _) => true | _ => false end
  | None => false
  end.
Definition isfile (p : string) : M bool := λ s, (Ok (is_regular s p), s).

(** The name under which [q] is an entry of directory [p], if it is one. *)
Definition child_of (p q : list string) : option string :=
  if bool_decide (q ≠ [] ∧ removelast q = p) then last q else None.

Definition children (fs : gmap (list string) entry) (p : list string)
    : list string :=
  omap (λ kv, child_of p kv.1) (map_to_list fs).

(** [os.listdir] *)
Definition listdir (p : string) : M (list string) := λ s,
  match resolve s p with
  | Some q => if is_dir (files s) q then (Ok (children (files s) q), s)
              else (Raise OSError, s)
  | None => (Raise OSError, s)
  end.

(** [open(p, "wb")] followed by writing [content] and closing. *)
Definition write_file (p : string) (content : list Byte.byte) : M unit := λ s,
  if has_nul p then (Raise ValueError, s)
  else
    match resolve s p with
    | Some q =>
        if is_dir (files s) q then (Raise OSError, s)
        else (Ok (), State (<[q := File content]> (files s)) (cwd s) (stdout s)
                       (stdout_encoding s))
    | None => (Raise OSError, s)
    end.

(** [open(p, "rb").read()] *)
Definition read_file (p : string) : M (list Byte.byte) := λ s,
  match resolve s p with
  | Some q => match files s !! q with
              | Some (File content) => (Ok content, s)
              | _ => (Raise OSError, s)
              end
  | None => (Raise OSError, s)
  end.

(** Whether every byte of [line] is below 128. *)
Fixpoint is_ascii (line : string) : bool :=
  match line with
  | EmptyString => true
  | String (Ascii _ _ _ _ _ _ _ b7) line' => negb b7 && is_ascii line'
  end.

(** Whether [line.encode(enc)] succeeds. *)
Definition encodable (enc : codec) (line : string) : bool :=
  match enc with
  | UTF8 => true
  | ASCII => is_ascii line
  end.

(** [print]: the line is encoded for standard output. *)
Definition print (line : string) : M unit := λ s,
  if encodable (stdout_encoding s) line then
    (Ok (), State (files s) (cwd s) (stdout s ++ [line]) (stdout_encoding s))
  else (Raise UnicodeEncodeError, s).

End os.

(** ** werkzeug and Flask *)

(** An uploaded part: [werkzeug.datastructures.FileStorage]. *)
Record FileStorage := {
  filename : string;
  stream : list Byte.byte
}.

(** [request.files]: the file parts by field name, in request order. *)
Record Request := { request_files : list (string * FileStorage) }.

(** [key in request.files] *)
Definition files_contains (key : string) (req : Request) : bool :=
  bool_decide (key ∈ (request_files req).*1).

(** [request.files[key]]: the first part of that field. *)
Fixpoint files_getitem (key : string) (l : list (string * FileStorage))
    : option FileStorage :=
  match l with
  | [] => None
  | (k, f) :: l' => if bool_decide (k = key) then Some f else files_getitem key l'
  end.

(** [FileStorage.save(dst)] *)
Definition save (file : FileStorage) (dst : string) : M unit :=
  os.write_file dst (stream file).

Inductive body :=
  | Text (text : string)
  | JsonFiles (names : list string)          (* {"files": [...]} *)
  | Attachment (download_name : string) (content : list Byte.byte)
  | DefaultBadRequest
  | DefaultNotFound
  | DefaultServerError.

Record response := Response { status : Z; payload : body }.

(** [os.path.altsep] and every [os.sep] other than [/]: none on POSIX. *)
Definition _os_alt_seps : list string := [].

(** [s in filename] for a one-character [s]. *)
Fixpoint contains_char (c : ascii) (s : string) : bool :=
  match s with
  | EmptyString => false
  | String c' s' => Ascii.eqb c c' || contains_char c s'
  end.

Definition contains_sep (s filename : string) : bool :=
  match s with
  | String c EmptyString => contains_char c filename
  | _ => false
  end.

(** [werkzeug.security.safe_join(directory, filename)] *)
Definition safe_join (directory filename : string) : option string :=
  let directory := if bool_decide (directory = "") then "." else directory in
  let filename :=
    if bool_decide (filename ≠ "") then posixpath.normpath filename
    else filename in
  if existsb (λ s, contains_sep s filename) _os_alt_seps
     || posixpath.isabs filename
     || bool_decide (filename = "..")
     || Str.startswith filename "../"
  then None
  else Some (posixpath.join directory filename).

(** [send_file(path, as_attachment=True)] *)
Definition send_file (path : string) : M response :=
  content <- os.read_file path ;;
  ret (Response 200 (Attachment (posixpath.basename path) content)).

(** [flask.send_from_directory(directory, path, as_attachment=True)];
    [root_path] is the application's root path, which Flask joins in
    front of the result of [safe_join]. *)
Definition send_from_directory (root_path directory path : string)
    : M response :=
  match safe_join directory path with
  | None => raise NotFound
  | Some path_str =>
      let path_str := posixpath.join root_path path_str in
      found <- os.isfile path_str ;;
      if negb found then raise NotFound
      else send_file path_str
  end.

(** ** The handlers of [server.py] *)

(** [[f for f in l if cond(f)]] *)
Fixpoint comprehension {A} (cond : A → M bool) (l : list A) : M (list A) :=
  match l with
  | [] => ret []
  | f :: l' =>
      keep <- cond f ;;
      rest <- comprehension cond l' ;;
      ret (if keep then f :: rest else rest)
  end.

Definition check_mark : string :=
  String (ascii_of_nat 226) (String (ascii_of_nat 156)
    (String (ascii_of_nat 133) EmptyString)).

Definition upload_file (request : Request) : M response :=
  if negb (files_contains "file" request) then
    ret (Response 400 (Text "No file part"))
  else
    match files_getitem "file" (request_files request) with
    | None => raise BadRequestKeyError
    | Some file =>
        if bool_decide (filename file = "") then
          ret (Response 400 (Text "No selected file"))
        else
          d <- os.getcwd ;;
          let save_path := posixpath.join d (filename file) in
          save file save_path ;;;
          os.print (check_mark +:+ " Received file: " +:+ filename file) ;;;
          ret (Response 200 (Text "File uploaded successfully"))
    end.

Definition list_files : M response :=
  entries <- (d <- os.getcwd ;; os.listdir d) ;;
  files <- comprehension
             (λ f, d <- os.getcwd ;; os.isfile (posixpath.join d f)) entries ;;
  ret (Response 200 (JsonFiles files)).

Definition get_file (root_path : string) (filename : string) : M response :=
  d <- os.getcwd ;;
  send_from_directory root_path d filename.

(** Flask's dispatch of a view: its return value, or the default page of
    the exception it raised. *)
Definition dispatch (view : M response) (s : state) : response * state :=
  match view s with
  | (Ok r, s') => (r, s')
  | (Raise NotFound, s') => (Response 404 DefaultNotFound, s')
  | (Raise BadRequestKeyError, s') => (Response 400 DefaultBadRequest, s')
  | (Raise _, s') => (Response 500 DefaultServerError, s')
  end.

Definition POST_upload (request : Request) : state → response * state :=
  dispatch (upload_file request).
Definition GET_files : state → response * state :=
  dispatch list_files.
Definition GET_file (root_path filename : string) : state → response * state :=
  dispatch (get_file root_path filename).

(** A request with a single part in field [file]. *)
Definition file_request (name : string) (content : list Byte.byte) : Request :=
  {| request_files := [("file", {| filename := name; stream := content |})] |}.


(** ** Well-formed directory trees *)

Definition valid_name (n : string) : Prop :=
  n ≠ "" ∧ n ≠ "." ∧ n ≠ ".." ∧ Str.sepfree n = true.

Global Instance valid_name_dec n : Decision (valid_name n).
Proof. unfold valid_name. apply _. Defined.

(** A name that a directory can hold. *)
Definition storable_name (n : string) : Prop :=
  os.has_nul n = false ∧ (String.length n ≤ os.NAME_MAX)%nat.

Definition is_link (e : entry) : bool :=
  match e with Link _ => true | _ => false end.

(** The trees of the theorems: every entry lies in a directory, under
    names and a path that the system accepts, and there is no symbolic
    link. *)
Definition wf (s : state) : Prop :=
  files s !! [] = Some Dir
  ∧ files s !! cwd s = Some Dir
  ∧ map_Forall (λ p _, files s !! removelast p = Some Dir) (files s)
  ∧ map_Forall (λ p _, Forall valid_name p) (files s)
  ∧ map_Forall (λ p e, Forall storable_name p
                       ∧ (String.length (os.canonical p) < os.PATH_MAX)%nat
                       ∧ is_link e = false) (files s).

Global Instance wf_dec s : Decision (wf s).
Proof. unfold wf. apply _. Defined.

(** ** Auxiliary notions of the proofs *)

(** What [normpath] has collected so far: some leading [..], then names. *)
Definition normal_form (acc : list string) : Prop :=
  ∃ k names, acc = replicate k ".." ++ names ∧ Forall valid_name names.

(** The line that [upload_file] prints. *)
Definition log_line (name : string) : string :=
  check_mark +:+ " Received file: " +:+ name.

(** The state after [content] has been saved to the entry [q]. *)
Definition saved (s : state) (q : list string) (content : list Byte.byte)
    : state :=
  State (<[q := File content]> (files s)) (cwd s) (stdout s)
        (stdout_encoding s).

(** The state after the line about [name] has been printed as well. *)
Definition written (s : state) (q : list string) (name : string)
    (content : list Byte.byte) : state :=
  State (<[q := File content]> (files s)) (cwd s) (stdout s ++ [log_line name])
        (stdout_encoding s).

(** A plain name that the upload handler stores in the storage
    directory: the system accepts the name and the path, the line about
    it can be printed, and the name is not taken by a subdirectory. *)
Definition acceptable (s : state) (n : string) : Prop :=
  valid_name n ∧ storable_name n
  ∧ (String.length (posixpath.join (os.getcwd_string s) n) < os.PATH_MAX)%nat
  ∧ os.encodable (stdout_encoding s) (log_line n) = true
  ∧ files s !! (cwd s ++ [n]) ≠ Some Dir.

Global Instance acceptable_dec s n : Decision (acceptable s n).
Proof. unfold acceptable, storable_name. apply _. Defined.

(** The lexical reading of a path, which is resolution in a tree without
    symbolic links. *)
Fixpoint descend (fs : gmap (list string) entry) (cur : list string)
    (comps : list string) : option (list string) :=
  match comps with
  | [] => Some cur
  | comp :: rest =>
      if negb (os.is_dir fs cur) then None
      else if negb (String.length comp <=? os.NAME_MAX)%nat then None
      else descend fs (os.step cur comp) rest
  end.

(** The ways in which [upload_file] ends. *)
Inductive upload_outcome (req : Request) (s : state)
    : result response * state → Prop :=
  | upload_no_part :
      files_contains "file" req = false →
      upload_outcome req s (Ok (Response 400 (Text "No file part")), s)
  | upload_no_name file :
      files_getitem "file" (request_files req) = Some file →
      filename file = "" →
      upload_outcome req s (Ok (Response 400 (Text "No selected file")), s)
  | upload_null_byte file :
      files_getitem "file" (request_files req) = Some file →
      filename file ≠ "" →
      os.has_nul (posixpath.join (os.getcwd_string s) (filename file)) = true →
      upload_outcome req s (Raise ValueError, s)
  | upload_raised file :
      files_getitem "file" (request_files req) = Some file →
      filename file ≠ "" →
      (∀ q, os.resolve s (posixpath.join (os.getcwd_string s) (filename file))
            = Some q → files s !! q = Some Dir) →
      upload_outcome req s (Raise OSError, s)
  | upload_unprinted file q :
      files_getitem "file" (request_files req) = Some file →
      filename file ≠ "" →
      os.resolve s (posixpath.join (os.getcwd_string s) (filename file))
      = Some q →
      files s !! q ≠ Some Dir →
      os.encodable (stdout_encoding s) (log_line (filename file)) = false →
      upload_outcome req s
        (Raise UnicodeEncodeError, saved s q (stream file))
  | upload_saved file q :
      files_getitem "file" (request_files req) = Some file →
      filename file ≠ "" →
      os.resolve s (posixpath.join (os.getcwd_string s) (filename file))
      = Some q →
      files s !! q ≠ Some Dir →
      os.encodable (stdout_encoding s) (log_line (filename file)) = true →
      upload_outcome req s
        (Ok (Response 200 (Text "File uploaded successfully")),
         written s q (filename file) (stream file)).


(** ** Sample states *)

Definition bytes (s : string) : list Byte.byte := String.list_byte_of_string s.

(** [/srv/store] is the empty storage directory. *)
Definition empty_store : state :=
  State (list_to_map [([], Dir); (["srv"], Dir); (["srv"; "store"], Dir)])
        ["srv"; "store"] [] UTF8.


(** [/srv/store] holds [notes.txt] and the subdirectory [docs] with
    [docs/a.txt]; [/srv/secret.txt] lies outside. *)
Definition sample_store : state :=
  State (list_to_map [([], Dir); (["srv"], Dir); (["srv"; "store"], Dir);
                      (["srv"; "secret.txt"], File (bytes "key"));
                      (["srv"; "store"; "notes.txt"], File (bytes "hello"));
                      (["srv"; "store"; "docs"], Dir);
                      (["srv"; "store"; "docs"; "a.txt"], File (bytes "a"))])
        ["srv"; "store"] [] UTF8.

(** ["a" * n] *)
Fixpoint long_name (n : nat) : string :=
  match n with
  | O => EmptyString
  | S n' => String "a" (long_name n')
  end.

(** [/srv/store] holds [link], a symbolic link to [/srv], where
    [secret.txt] lies. *)
Definition link_store : state :=
  State (list_to_map [([], Dir); (["srv"], Dir); (["srv"; "store"], Dir);
                      (["srv"; "secret.txt"], File (bytes "key"));
                      (["srv"; "store"; "link"], Link "/srv")])
        ["srv"; "store"] [] UTF8.

(** The empty storage directory of a process whose standard output is
    ASCII. *)
Definition ascii_store : state :=
  State (list_to_map [([], Dir); (["srv"], Dir); (["srv"; "store"], Dir)])
        ["srv"; "store"] [] ASCII.

(** ** Strings: splitting and joining *)

Section string_facts.

Lemma append_cons (c : ascii) (a b : string) :
  String c a +:+ b = String c (a +:+ b).
Proof. reflexivity. Qed.

Lemma append_nil_l (s : string) : "" +:+ s = s.
Proof. reflexivity. Qed.

Lemma append_nil_r (s : string) : s +:+ "" = s.
Proof.
  induction s as [|c s IH]; [done |]. by rewrite append_cons, IH.
Qed.

Lemma append_assoc (a b c : string) : (a +:+ b) +:+ c = a +:+ (b +:+ c).
Proof.
  induction a as [|x a IH]; [done |]. by rewrite !append_cons, IH.
Qed.

Lemma split_nonempty (s : string) : Str.split s ≠ [].
Proof.
  destruct s as [|c s]; simpl; [done |].
  destruct (Ascii.eqb c Str.sep); [done |].
  by destruct (Str.split s).
Qed.

Lemma split_sep_cons (s : string) :
  Str.split (String Str.sep s) = "" :: Str.split s.
Proof. done. Qed.

(** Splitting distributes over a separator. *)
Lemma split_app_sep (a b : string) :
  Str.split (a +:+ String Str.sep b) = Str.split a ++ Str.split b.
Proof.
  induction a as [|c a IH]; [done |].
  rewrite append_cons. cbn [Str.split]. rewrite IH.
  destruct (Ascii.eqb c Str.sep); [done |].
  pose proof (split_nonempty a) as Hne.
  by destruct (Str.split a).
Qed.

Lemma split_sepfree (s : string) :
  Str.sepfree s = true → Str.split s = [s].
Proof.
  induction s as [|c s IH]; [done |].
  cbn [Str.sepfree Str.split]. intros [Hc Hs]%andb_true_iff.
  apply negb_true_iff in Hc. rewrite Hc, (IH Hs). done.
Qed.

Lemma split_all_sepfree (s : string) :
  Forall (λ c, Str.sepfree c = true) (Str.split s).
Proof.
  induction s as [|c s IH]; [by repeat constructor |].
  cbn [Str.split]. destruct (Ascii.eqb c Str.sep) eqn:Hc.
  - by constructor.
  - destruct (Str.split s) as [|w ws].
    + constructor; [|done]. cbn [Str.sepfree]. by rewrite Hc.
    + inversion_clear IH as [|? ? Hw Hws]. constructor; [|done].
      cbn [Str.sepfree]. by rewrite Hc, Hw.
Qed.

Lemma join_cons_cons (x y : string) (l : list string) :
  Str.join (x :: y :: l) = x +:+ String Str.sep (Str.join (y :: l)).
Proof. done. Qed.

Lemma join_app (p names : list string) :
  p ≠ [] → names ≠ [] →
  Str.join (p ++ names) = Str.join p +:+ String Str.sep (Str.join names).
Proof.
  intros Hp Hn. induction p as [|x [|y p] IH]; [done | |].
  - by destruct names.
  - change ((x :: y :: p) ++ names) with (x :: y :: (p ++ names)).
    rewrite !join_cons_cons.
    change (y :: p ++ names) with ((y :: p) ++ names). rewrite IH by done.
    by rewrite append_assoc, append_cons.
Qed.

Lemma split_join (comps : list string) :
  comps ≠ [] → Forall (λ c, Str.sepfree c = true) comps →
  Str.split (Str.join comps) = comps.
Proof.
  induction comps as [|x [|y l] IH]; [done | |].
  - intros _ Hx. inversion_clear Hx. by apply split_sepfree.
  - intros _ Hx. inversion_clear Hx as [|? ? Hx' Hl].
    rewrite join_cons_cons, split_app_sep, IH by done.
    by rewrite split_sepfree.
Qed.

Lemma startswith_sep (s : string) :
  Str.startswith s "/" = true ↔ ∃ r, s = String Str.sep r.
Proof.
  destruct s as [|c s]; cbn [Str.startswith].
  - split; [done | by intros [? ?]].
  - replace (Str.startswith s "") with true by (by destruct s).
    rewrite andb_true_r, Ascii.eqb_eq. split.
    + intros <-. by eexists.
    + by intros [r [= -> ->]].
Qed.

Lemma endswith_sep_app (a b : string) :
  b ≠ "" → Str.endswith_sep (a +:+ b) = Str.endswith_sep b.
Proof.
  intros Hb. induction a as [|c a IH]; [done |].
  rewrite append_cons. cbn [Str.endswith_sep]. rewrite IH.
  destruct (a +:+ b) eqn:E; [|done].
  destruct a; [by rewrite append_nil_l in E | by rewrite append_cons in E].
Qed.

Lemma endswith_sep_sepfree (s : string) :
  Str.sepfree s = true → Str.endswith_sep s = false.
Proof.
  induction s as [|c s IH]; [done |].
  cbn [Str.sepfree Str.endswith_sep]. intros [Hc Hs]%andb_true_iff.
  apply negb_true_iff in Hc. destruct s; [done | by apply IH].
Qed.

End string_facts.

(** ** Lexical normalisation against path resolution *)

Section normpath_facts.

Lemma valid_name_step (cur : list string) (n : string) :
  valid_name n → os.step cur n = cur ++ [n].
Proof.
  intros (H1 & H2 & H3 & _). unfold os.step.
  rewrite !bool_decide_eq_false_2 by done. done.
Qed.

Lemma step_names (cur names : list string) :
  Forall valid_name names → fold_left os.step names cur = cur ++ names.
Proof.
  revert cur. induction names as [|n names IH]; intros cur Hv.
  - by rewrite app_nil_r.
  - inversion_clear Hv. cbn [fold_left].
    rewrite valid_name_step, IH, <- app_assoc by done. done.
Qed.

Lemma normal_form_nil : normal_form [].
Proof. by exists 0%nat, []. Qed.

(** One round of [normpath] keeps the shape and follows the same
    directory as the operating system does. *)
Lemma normpath_step_spec (acc : list string) (c : string) :
  normal_form acc → Str.sepfree c = true →
  normal_form (posixpath.normpath_step 0 acc c)
  ∧ ∀ cur, fold_left os.step (posixpath.normpath_step 0 acc c) cur
           = os.step (fold_left os.step acc cur) c.
Proof.
  intros (k & names & -> & Hnames) Hc.
  unfold posixpath.normpath_step.
  destruct (decide (c = "")) as [->|H1].
  { split; [by exists k, names | done]. }
  destruct (decide (c = ".")) as [->|H2].
  { split; [by exists k, names | done]. }
  rewrite (bool_decide_eq_false_2 (c = "")), (bool_decide_eq_false_2 (c = "."))
    by done.
  cbn [orb].
  destruct (decide (c = "..")) as [->|H3].
  - rewrite (bool_decide_eq_true_2 (".." = "..")) by done. cbn [negb orb].
    rewrite (bool_decide_eq_true_2 (0%nat = 0%nat)) by done. cbn [andb].
    destruct (list_eq_nil_dec names) as [->|Hne].
    + (* only [..] so far: one more *)
      rewrite app_nil_r.
      assert (bool_decide (replicate k ".." = [])
              || negb (bool_decide (replicate k ".." = []))
                 && bool_decide (last (replicate k "..") = Some "..") = true)
        as ->.
      { destruct k as [|k]; [done |].
        rewrite (bool_decide_eq_false_2 (replicate (S k) ".." = [])) by done.
        rewrite replicate_S_end, last_snoc. done. }
      split.
      * exists (S k), []. by rewrite replicate_S_end, !app_nil_r.
      * intros cur. by rewrite fold_left_app.
    + (* a name is on top: drop it *)
      destruct (exists_last Hne) as (names' & n & ->).
      apply Forall_app in Hnames as [Hnames' Hn].
      inversion_clear Hn as [|? ? Hn' _].
      assert (replicate k ".." ++ names' ++ [n] ≠ []) as Hacc.
      { intros [_ [_ ?]%app_eq_nil]%app_eq_nil. done. }
      rewrite (bool_decide_eq_false_2 _ Hacc). cbn [negb orb andb].
      rewrite !app_assoc, last_snoc.
      rewrite bool_decide_eq_false_2
        by (intros [= ->]; by destruct Hn' as (_ & _ & ? & _)).
      rewrite removelast_last. split.
      * by exists k, names'.
      * intros cur. rewrite !fold_left_app. cbn [fold_left].
        rewrite (valid_name_step _ n) by done.
        unfold os.step. cbn. by rewrite removelast_last.
  - rewrite (bool_decide_eq_false_2 (c = "..")) by done. cbn [negb orb].
    split.
    + exists k, (names ++ [c]). rewrite app_assoc. split; [done |].
      apply Forall_app. split; [done |]. by repeat constructor.
    + intros cur. by rewrite fold_left_app.
Qed.

Lemma normpath_fold_spec (comps acc : list string) :
  normal_form acc → Forall (λ c, Str.sepfree c = true) comps →
  normal_form (fold_left (posixpath.normpath_step 0) comps acc)
  ∧ ∀ cur, fold_left os.step (fold_left (posixpath.normpath_step 0) comps acc) cur
           = fold_left os.step comps (fold_left os.step acc cur).
Proof.
  revert acc. induction comps as [|c comps IH]; intros acc Hacc Hsep.
  - done.
  - inversion_clear Hsep as [|? ? Hc Hcomps].
    destruct (normpath_step_spec acc c Hacc Hc) as [Hnf Hstep].
    destruct (IH _ Hnf Hcomps) as [Hnf' Hfold].
    cbn [fold_left]. split; [done |].
    intros cur. by rewrite Hfold, Hstep.
Qed.

(** [normpath] and the operating system agree on where a relative path
    leads. *)
Lemma normpath_comps_spec (f : string) :
  normal_form (posixpath.normpath_comps 0 (Str.split f))
  ∧ ∀ cur, fold_left os.step (posixpath.normpath_comps 0 (Str.split f)) cur
           = fold_left os.step (Str.split f) cur.
Proof.
  apply (normpath_fold_spec (Str.split f) [] normal_form_nil),
    split_all_sepfree.
Qed.

Lemma valid_name_not_abs (n rest : string) :
  valid_name n → posixpath.isabs (n +:+ rest) = false.
Proof.
  intros (Hne & _ & _ & Hsep). destruct n as [|c n]; [done |].
  cbn [Str.sepfree] in Hsep. apply andb_true_iff in Hsep as [Hc _].
  apply negb_true_iff in Hc. rewrite append_cons.
  unfold posixpath.isabs. cbn [Str.startswith].
  rewrite Ascii.eqb_sym in Hc. unfold Str.sep in Hc. by rewrite Hc.
Qed.

Lemma join_singleton (x : string) : Str.join [x] = x.
Proof. done. Qed.

Lemma sepfree_cons (c : ascii) (n : string) :
  Str.sepfree (String c n) = true →
  Ascii.eqb "/" c = false ∧ Str.sepfree n = true.
Proof.
  cbn [Str.sepfree]. intros [Hc Hn]%andb_true_iff.
  apply negb_true_iff in Hc. by rewrite Ascii.eqb_sym.
Qed.

Lemma sepfree_not_dotdot_prefix (n : string) :
  Str.sepfree n = true → Str.startswith n "../" = false.
Proof.
  intros Hsep. destruct n as [|a [|b [|c n]]]; cbn [Str.startswith];
    [done | by rewrite andb_false_r | by rewrite !andb_false_r |].
  - apply sepfree_cons in Hsep as [_ Hsep].
    apply sepfree_cons in Hsep as [_ Hsep].
    apply sepfree_cons in Hsep as [-> _]. by rewrite !andb_false_r.
Qed.

Lemma valid_name_sep_not_dotdot_prefix (n rest : string) :
  valid_name n →
  Str.startswith (n +:+ String Str.sep rest) "../" = false
  ∧ n +:+ String Str.sep rest ≠ "..".
Proof.
  intros (Hne & Hdot & Hdd & Hsep).
  destruct n as [|a [|b [|c n]]]; [done | | |].
  - rewrite append_cons, append_nil_l. split; [|by intros [= _ ?]].
    cbn [Str.startswith]. by rewrite andb_false_r.
  - rewrite !append_cons, append_nil_l. split; [|done].
    cbn [Str.startswith].
    destruct (Ascii.eqb "." a) eqn:Ha; [|done].
    destruct (Ascii.eqb "." b) eqn:Hb; [|done].
    apply Ascii.eqb_eq in Ha as <-. by apply Ascii.eqb_eq in Hb as <-.
  - rewrite !append_cons. split; [|done]. cbn [Str.startswith].
    apply sepfree_cons in Hsep as [_ Hsep].
    apply sepfree_cons in Hsep as [_ Hsep].
    apply sepfree_cons in Hsep as [-> _]. by rewrite !andb_false_r.
Qed.

Lemma join_valid_names (names : list string) :
  names ≠ [] → Forall valid_name names →
  Str.join names ≠ "" ∧ posixpath.isabs (Str.join names) = false
  ∧ Str.join names ≠ ".." ∧ Str.startswith (Str.join names) "../" = false.
Proof.
  destruct names as [|n [|m l]]; [done | |]; intros _ Hv.
  - inversion_clear Hv as [|? ? Hn _]. rewrite join_singleton.
    pose proof (valid_name_not_abs n "" Hn) as Habs.
    rewrite append_nil_r in Habs.
    destruct Hn as (Hne & Hdot & Hdd & Hsep).
    by auto using sepfree_not_dotdot_prefix.
  - inversion_clear Hv as [|? ? Hn _]. rewrite join_cons_cons.
    pose proof (valid_name_not_abs n (String Str.sep (Str.join (m :: l))) Hn).
    destruct (valid_name_sep_not_dotdot_prefix n (Str.join (m :: l)) Hn).
    repeat split; try done.
    destruct Hn as (Hne & _). destruct n; [done | by rewrite append_cons].
Qed.

Lemma initial_slashes_relative (f : string) :
  posixpath.isabs f = false → posixpath.initial_slashes f = 0%nat.
Proof. unfold posixpath.isabs, posixpath.initial_slashes. by intros ->. Qed.

(** An absolute path stays absolute under [normpath]. *)
Lemma normpath_isabs (f : string) :
  posixpath.isabs f = true → posixpath.isabs (posixpath.normpath f) = true.
Proof.
  intros Habs. unfold posixpath.normpath.
  rewrite bool_decide_eq_false_2 by (by intros ->).
  unfold posixpath.initial_slashes. unfold posixpath.isabs in Habs.
  rewrite Habs.
  destruct (Str.startswith f "//" && negb (Str.startswith f "///"));
    cbn [posixpath.slashes_string]; rewrite !append_cons.
  all: rewrite bool_decide_eq_false_2 by done.
  all: by apply startswith_sep; eexists.
Qed.

(** How [safe_join] decides on a non-empty filename. *)
Lemma safe_join_Some (d f path : string) :
  d ≠ "" → f ≠ "" → safe_join d f = Some path →
  posixpath.isabs f = false
  ∧ ∃ names, posixpath.normpath_comps 0 (Str.split f) = names
             ∧ Forall valid_name names
             ∧ path = posixpath.join d
                        (if bool_decide (names = []) then "."
                         else Str.join names).
Proof.
  intros Hd Hf. unfold safe_join.
  rewrite (bool_decide_eq_false_2 (d = "")), (bool_decide_eq_true_2 (f ≠ ""))
    by done.
  cbn [_os_alt_seps existsb orb].
  destruct (posixpath.isabs f) eqn:Habs.
  { by rewrite normpath_isabs. }
  unfold posixpath.normpath.
  rewrite (bool_decide_eq_false_2 (f = "")) by done.
  rewrite initial_slashes_relative by done.
  cbn [posixpath.slashes_string]. rewrite append_nil_l.
  destruct (normpath_comps_spec f) as [(k & names & Hnf & Hnames) _].
  rewrite Hnf. destruct k as [|k].
  - (* no leading [..]: accepted *)
    cbn [replicate app]. destruct (list_eq_nil_dec names) as [->|Hne].
    + cbn. intros [= <-]. split; [done |]. by exists [].
    + destruct (join_valid_names names Hne Hnames) as (H1 & H2 & H3 & H4).
      rewrite (bool_decide_eq_false_2 (Str.join names = "")) by done.
      rewrite H2, H4, (bool_decide_eq_false_2 (Str.join names = "..")) by done.
      cbn. intros [= <-]. split; [done |]. exists names.
      by rewrite (bool_decide_eq_false_2 (names = [])).
  - (* a leading [..]: rejected *)
    rewrite replicate_S. cbn [app].
    destruct (replicate k ".." ++ names) as [|y l].
    + by cbn.
    + rewrite join_cons_cons, !append_cons, append_nil_l.
      rewrite bool_decide_eq_false_2 by done.
      assert (∀ r, Str.startswith
                     (String "." (String "." (String Str.sep r))) "../" = true)
        as -> by (by intros []).
      by rewrite orb_true_r.
Qed.

End normpath_facts.

(** ** Lengths and NUL bytes *)

Section length_facts.

Lemma length_append (a b : string) :
  String.length (a +:+ b) = (String.length a + String.length b)%nat.
Proof.
  induction a as [|c a IH]; [done |].
  rewrite append_cons. cbn [String.length]. by rewrite IH.
Qed.

Lemma has_nul_append (a b : string) :
  os.has_nul (a +:+ b) = os.has_nul a || os.has_nul b.
Proof.
  induction a as [|c a IH]; [done |].
  rewrite append_cons. cbn [os.has_nul]. by rewrite IH, orb_assoc.
Qed.

(** The components of a string weigh what the string does, counting one
    for every separator and one more. *)
Lemma split_weight (s : string) :
  sum_list_with (λ c, S (String.length c)) (Str.split s) = S (String.length s).
Proof.
  induction s as [|c s IH]; [done |]. cbn [Str.split].
  destruct (Ascii.eqb c Str.sep).
  - cbn [sum_list_with String.length]. by rewrite IH.
  - pose proof (split_nonempty s) as Hne.
    destruct (Str.split s) as [|w ws]; [done |].
    cbn [sum_list_with String.length] in *. lia.
Qed.

Lemma join_weight (comps : list string) :
  comps ≠ [] →
  S (String.length (Str.join comps))
  = sum_list_with (λ c, S (String.length c)) comps.
Proof.
  induction comps as [|x [|y l] IH]; [done | |]; intros _.
  - rewrite join_singleton. cbn [sum_list_with]. lia.
  - rewrite join_cons_cons, length_append.
    specialize (IH ltac:(done)).
    cbn [sum_list_with String.length] in *. lia.
Qed.

Lemma has_nul_split (s : string) :
  os.has_nul s = false → Forall (λ c, os.has_nul c = false) (Str.split s).
Proof.
  induction s as [|c s IH]; [by repeat constructor |].
  cbn [os.has_nul Str.split]. intros [Hc Hs]%orb_false_iff.
  specialize (IH Hs). destruct (Ascii.eqb c Str.sep).
  - by constructor.
  - destruct (Str.split s) as [|w ws].
    + constructor; [|done]. cbn [os.has_nul]. by rewrite Hc.
    + inversion_clear IH as [|? ? Hw Hws]. constructor; [|done].
      cbn [os.has_nul]. by rewrite Hc, Hw.
Qed.

Lemma has_nul_join (comps : list string) :
  Forall (λ c, os.has_nul c = false) comps → os.has_nul (Str.join comps) = false.
Proof.
  induction comps as [|x [|y l] IH]; [done | |]; intros Hall.
  - by inversion_clear Hall.
  - inversion_clear Hall as [|? ? Hx Hl].
    rewrite join_cons_cons, has_nul_append, Hx. cbn [os.has_nul orb].
    by apply IH.
Qed.

Lemma removelast_weight (cur : list string) :
  (sum_list_with (λ c, S (String.length c)) (removelast cur)
   ≤ sum_list_with (λ c, S (String.length c)) cur)%nat.
Proof.
  induction cur as [|x cur _] using rev_ind; [done |].
  rewrite removelast_last, sum_list_with_app. lia.
Qed.

Lemma step_weight (cur : list string) (c : string) :
  (sum_list_with (λ c, S (String.length c)) (os.step cur c)
   ≤ sum_list_with (λ c, S (String.length c)) cur + S (String.length c))%nat.
Proof.
  unfold os.step. destruct (_ || _); [lia |]. case_bool_decide.
  - pose proof (removelast_weight cur). lia.
  - rewrite sum_list_with_app. cbn [sum_list_with]. lia.
Qed.

(** Following components lexically never leads to a longer path than
    the components make up. *)
Lemma fold_step_weight (comps cur : list string) :
  (sum_list_with (λ c, S (String.length c)) (fold_left os.step comps cur)
   ≤ sum_list_with (λ c, S (String.length c)) cur
     + sum_list_with (λ c, S (String.length c)) comps)%nat.
Proof.
  revert cur. induction comps as [|c comps IH]; intros cur; cbn [fold_left].
  - cbn [sum_list_with]. lia.
  - specialize (IH (os.step cur c)). pose proof (step_weight cur c).
    cbn [sum_list_with]. lia.
Qed.

Lemma canonical_length (p : list string) :
  p ≠ [] →
  String.length (os.canonical p)
  = sum_list_with (λ c, S (String.length c)) p.
Proof.
  intros Hp. unfold os.canonical. rewrite <- join_weight by done.
  by rewrite length_append.
Qed.

Lemma canonical_cons (p : list string) :
  os.canonical p = String Str.sep (Str.join p).
Proof. done. Qed.

Lemma has_nul_canonical (p : list string) :
  Forall storable_name p → os.has_nul (os.canonical p) = false.
Proof.
  intros Hp. rewrite canonical_cons. cbn [os.has_nul orb].
  apply has_nul_join. eapply Forall_impl; [exact Hp |]. by intros ? [? _].
Qed.

End length_facts.

(** ** Path resolution *)

Section resolution_facts.

Lemma is_dir_true (fs : gmap (list string) entry) (p : list string) :
  os.is_dir fs p = true ↔ fs !! p = Some Dir.
Proof.
  unfold os.is_dir. destruct (fs !! p) as [[]|]; split; done.
Qed.

Lemma follow_nil (fs : gmap (list string) entry) (b : nat) (cur : list string) :
  os.follow fs b cur [] = Some cur.
Proof. by destruct b. Qed.

(** One round of resolution. *)
Lemma follow_cons (fs : gmap (list string) entry) (b : nat)
    (cur : list string) (comp : string) (rest : list string) :
  os.follow fs b cur (comp :: rest)
  = if negb (os.is_dir fs cur) then None
    else if negb (String.length comp <=? os.NAME_MAX)%nat then None
    else match fs !! os.step cur comp with
         | Some (Link target) =>
             match b with
             | O => None
             | S b' =>
                 os.follow fs b' (if posixpath.isabs target then [] else cur)
                   (Str.split target ++ rest)
             end
         | _ => os.follow fs b (os.step cur comp) rest
         end.
Proof. by destruct b. Qed.

(** Without symbolic links, resolution is the lexical reading. *)
Lemma follow_link_free (fs : gmap (list string) entry) (b : nat)
    (cur comps : list string) :
  (∀ p e, fs !! p = Some e → is_link e = false) →
  os.follow fs b cur comps = descend fs cur comps.
Proof.
  intros Hfree. revert cur.
  induction comps as [|c comps IH]; intros cur; [apply follow_nil |].
  rewrite follow_cons. cbn [descend].
  destruct (negb (os.is_dir fs cur)); [done |].
  destruct (negb _); [done |].
  destruct (fs !! os.step cur c) as [[| |t]|] eqn:E; try apply IH.
  by apply Hfree in E.
Qed.

(** The lexical reading only ever follows the components one by one. *)
Lemma descend_lexical (fs : gmap (list string) entry) (cur comps p : list string) :
  descend fs cur comps = Some p → p = fold_left os.step comps cur.
Proof.
  revert cur. induction comps as [|c comps IH]; intros cur; cbn [descend].
  - by intros [= <-].
  - destruct (negb (os.is_dir fs cur)); [done |].
    destruct (negb _); [done |]. apply IH.
Qed.

(** Descending through existing directories. *)
Lemma descend_through_dirs (fs : gmap (list string) entry)
    (cur names rest : list string) :
  Forall valid_name names → Forall storable_name names →
  (∀ q, q `prefix_of` names → q ≠ names → fs !! (cur ++ q) = Some Dir) →
  descend fs cur (names ++ rest) = descend fs (cur ++ names) rest.
Proof.
  revert cur. induction names as [|n names IH]; intros cur Hv Hs Hdirs.
  - by rewrite app_nil_r.
  - inversion_clear Hv as [|? ? Hn Hnames].
    inversion_clear Hs as [|? ? [_ Hlen] Hstor]. cbn [app descend].
    assert (os.is_dir fs cur = true) as ->.
    { apply is_dir_true. rewrite <- (app_nil_r cur).
      apply Hdirs; [apply prefix_nil | done]. }
    apply Nat.leb_le in Hlen. rewrite Hlen. cbn [negb].
    rewrite valid_name_step by done. rewrite IH; [| done | done |].
    + by rewrite <- app_assoc.
    + intros q Hq Hne. rewrite <- app_assoc. apply Hdirs.
      * by apply prefix_cons.
      * by intros [= ->].
Qed.

(** A path that ends in an empty component leads to a directory. *)
Lemma follow_trailing_empty (fs : gmap (list string) entry) (b : nat)
    (cur comps q : list string) :
  os.follow fs b cur (comps ++ [""]) = Some q → fs !! q = Some Dir.
Proof.
  revert cur comps. induction b as [|b IHb]; intros cur comps; revert cur.
  all: induction comps as [|c comps IH]; intros cur; cbn [app].
  all: rewrite follow_cons.
  all: destruct (os.is_dir fs cur) eqn:Hd; cbn [negb]; [|done].
  all: apply is_dir_true in Hd.
  1, 3: change (os.step cur "") with cur; rewrite Hd;
        cbn [negb Nat.leb String.length]; rewrite follow_nil;
        by intros [= <-].
  all: destruct (negb _); [done |].
  all: destruct (fs !! os.step cur c) as [[| |t]|]; try apply IH.
  - done.
  - rewrite app_assoc. apply IHb.
Qed.

(** Resolution never ends at a symbolic link. *)
Lemma follow_not_link (fs : gmap (list string) entry) (b : nat)
    (cur comps q : list string) :
  comps ≠ [] → os.follow fs b cur comps = Some q →
  is_link (default Dir (fs !! q)) = false.
Proof.
  revert cur comps. induction b as [|b IHb]; intros cur comps; revert cur.
  all: induction comps as [|c comps IH]; intros cur Hne; [done |].
  all: rewrite follow_cons.
  all: destruct (negb (os.is_dir fs cur)); [done |].
  all: destruct (negb _); [done |].
  all: destruct (fs !! os.step cur c) as [[| |t]|] eqn:E.
  all: try (destruct comps as [|c' comps];
            [ rewrite follow_nil; intros [= <-]; by rewrite E
            | by apply IH ]).
  - done.
  - apply IHb. pose proof (split_nonempty t). by destruct (Str.split t).
Qed.

Lemma getcwd_string_cons (s : state) :
  os.getcwd_string s = String Str.sep (Str.join (cwd s)).
Proof. done. Qed.

Lemma endswith_sep_join (names : list string) :
  names ≠ [] → Forall valid_name names →
  Str.endswith_sep (Str.join names) = false.
Proof.
  induction names as [|x [|y l] IH]; [done | |]; intros _ Hv.
  - inversion_clear Hv as [|? ? (_ & _ & _ & Hx) _].
    by apply endswith_sep_sepfree.
  - inversion_clear Hv as [|? ? _ Hl].
    destruct (join_valid_names (y :: l)) as (Hne & _); [done.. |].
    rewrite join_cons_cons, endswith_sep_app by done.
    change (String Str.sep (Str.join (y :: l)))
      with ("/" +:+ Str.join (y :: l)).
    rewrite endswith_sep_app by done. by apply IH.
Qed.

(** The components of [os.path.join(os.getcwd(), f)] for a relative [f]. *)
Lemma split_getcwd_join (s : state) (f : string) :
  Forall valid_name (cwd s) → posixpath.isabs f = false →
  Str.split (posixpath.join (os.getcwd_string s) f)
  = "" :: cwd s ++ Str.split f.
Proof.
  intros Hv Habs. unfold posixpath.join. unfold posixpath.isabs in Habs.
  rewrite Habs, getcwd_string_cons.
  rewrite (bool_decide_eq_false_2 (String _ _ = "")) by done. cbn [orb].
  destruct (list_eq_nil_dec (cwd s)) as [Hnil|Hne].
  - rewrite Hnil. by cbn.
  - destruct (join_valid_names (cwd s)) as (Hj & _); [done.. |].
    change (String Str.sep (Str.join (cwd s)))
      with ("/" +:+ Str.join (cwd s)) at 1.
    rewrite endswith_sep_app, endswith_sep_join by done.
    change ("/" +:+ f) with (String Str.sep f).
    rewrite split_app_sep, split_sep_cons, split_join; [done.. |].
    eapply Forall_impl; [exact Hv |]. by intros ? (_ & _ & _ & ?).
Qed.

Lemma getcwd_join_abs (s : state) (f : string) :
  posixpath.isabs (posixpath.join (os.getcwd_string s) f) = true
  ∧ posixpath.join (os.getcwd_string s) f ≠ "".
Proof.
  unfold posixpath.join.
  destruct (Str.startswith f "/") eqn:Habs.
  - split; [done | by intros ->].
  - rewrite getcwd_string_cons.
    destruct (_ || _); rewrite append_cons; split; try done;
      by apply startswith_sep; eexists.
Qed.

(** Names joined to the path of a directory are the path of the entry
    that they lead to. *)
Lemma join_canonical_names (p names : list string) :
  Forall valid_name p → Forall valid_name names → names ≠ [] →
  posixpath.join (os.canonical p) (Str.join names) = os.canonical (p ++ names).
Proof.
  intros Hp Hv Hne. destruct (join_valid_names names Hne Hv) as (_ & Habs & _).
  unfold posixpath.isabs in Habs.
  unfold posixpath.join. rewrite Habs, !canonical_cons.
  rewrite (bool_decide_eq_false_2 (String _ _ = "")) by done. cbn [orb].
  destruct (list_eq_nil_dec p) as [->|Hpne]; [done |].
  destruct (join_valid_names p) as (Hj & _); [done.. |].
  change (String Str.sep (Str.join p)) with ("/" +:+ Str.join p) at 1.
  rewrite endswith_sep_app, endswith_sep_join by done.
  by rewrite !append_cons, append_nil_l, join_app.
Qed.

Lemma join_canonical (p : list string) (n : string) :
  Forall valid_name p → valid_name n →
  posixpath.join (os.canonical p) n = os.canonical (p ++ [n]).
Proof.
  intros Hp Hn. rewrite <- (join_singleton n) at 1.
  apply join_canonical_names; [done | by apply Forall_singleton | done].
Qed.

Lemma endswith_sep_inv (p : string) :
  Str.endswith_sep p = true → ∃ a, p = a +:+ String Str.sep "".
Proof.
  induction p as [|c p IH]; [done |]. cbn [Str.endswith_sep].
  destruct p as [|c' p'].
  - intros ->%Ascii.eqb_eq. by exists "".
  - intros [a ->]%IH. by exists (String c a).
Qed.

(** A path with a trailing slash never names a regular file. *)
Lemma is_regular_trailing_sep (s : state) (p : string) :
  Str.endswith_sep p = true → os.is_regular s p = false.
Proof.
  intros [a ->]%endswith_sep_inv. unfold os.is_regular, os.resolve.
  destruct (os.path_ok _); [|done]. rewrite split_app_sep. cbn [Str.split].
  destruct (os.follow _ _ _ _) as [q|] eqn:Hw; [|done].
  by rewrite (follow_trailing_empty _ _ _ _ _ Hw).
Qed.

Lemma join_empty_endswith_sep (d : string) :
  d ≠ "" → Str.endswith_sep (posixpath.join d "") = true.
Proof.
  intros Hd. unfold posixpath.join. cbn [Str.startswith].
  rewrite bool_decide_eq_false_2 by done. cbn [orb].
  destruct (Str.endswith_sep d) eqn:He.
  - by rewrite append_nil_r.
  - by rewrite endswith_sep_app.
Qed.

End resolution_facts.

(** ** Facts about well-formed directory trees *)

Section well_formed.

Context (s : state) (Hwf : wf s).

Lemma wf_root : files s !! [] = Some Dir.
Proof. apply Hwf. Qed.

Lemma wf_cwd : files s !! cwd s = Some Dir.
Proof. apply Hwf. Qed.

Lemma wf_parent_dir (p : list string) (e : entry) :
  files s !! p = Some e → files s !! removelast p = Some Dir.
Proof. destruct Hwf as (_ & _ & Hp & _). exact (Hp p e). Qed.

Lemma wf_valid_names (p : list string) (e : entry) :
  files s !! p = Some e → Forall valid_name p.
Proof. destruct Hwf as (_ & _ & _ & Hn & _). exact (Hn p e). Qed.

Lemma wf_storable (p : list string) (e : entry) :
  files s !! p = Some e → Forall storable_name p.
Proof. destruct Hwf as (_ & _ & _ & _ & Hs). intros H. by apply (Hs p e). Qed.

Lemma wf_path_length (p : list string) (e : entry) :
  files s !! p = Some e → (String.length (os.canonical p) < os.PATH_MAX)%nat.
Proof. destruct Hwf as (_ & _ & _ & _ & Hs). intros H. by apply (Hs p e). Qed.

Lemma wf_link_free (p : list string) (e : entry) :
  files s !! p = Some e → is_link e = false.
Proof. destruct Hwf as (_ & _ & _ & _ & Hs). intros H. by apply (Hs p e). Qed.

Lemma wf_entry_name (p : list string) (n : string) (e : entry) :
  files s !! (p ++ [n]) = Some e → valid_name n.
Proof.
  intros Hl%wf_valid_names.
  revert Hl. rewrite Forall_app, Forall_singleton. by intros [_ ?].
Qed.

Lemma wf_entry_storable (p : list string) (n : string) (e : entry) :
  files s !! (p ++ [n]) = Some e → storable_name n.
Proof.
  intros Hl%wf_storable.
  revert Hl. rewrite Forall_app, Forall_singleton. by intros [_ ?].
Qed.

(** The system accepts the path of every entry. *)
Lemma wf_path_ok (p : list string) (e : entry) :
  files s !! p = Some e → os.path_ok (os.canonical p) = true.
Proof.
  intros He. unfold os.path_ok.
  rewrite (has_nul_canonical p) by (by eapply wf_storable).
  rewrite (proj2 (Nat.ltb_lt _ _) (wf_path_length p e He)).
  by rewrite canonical_cons.
Qed.

(** Every proper ancestor of an entry is a directory. *)
Lemma ancestor_dir (p q : list string) :
  is_Some (files s !! (p ++ q)) → q ≠ [] → files s !! p = Some Dir.
Proof.
  induction q as [|x q IH] using rev_ind; [done |].
  intros [e He%wf_parent_dir] _.
  rewrite app_assoc, removelast_last in He.
  destruct (list_eq_nil_dec q) as [->|Hq].
  - by rewrite app_nil_r in He.
  - by apply IH.
Qed.

Lemma prefix_dir (p q : list string) :
  files s !! p = Some Dir → q `prefix_of` p → files s !! q = Some Dir.
Proof.
  intros Hp [r ->]. destruct (list_eq_nil_dec r) as [->|Hr].
  - by rewrite app_nil_r in Hp.
  - apply (ancestor_dir q r); [by eexists | done].
Qed.

(** There is no symbolic link to follow. *)
Lemma follow_wf (b : nat) (cur comps : list string) :
  os.follow (files s) b cur comps = descend (files s) cur comps.
Proof. apply follow_link_free. intros p e. apply wf_link_free. Qed.

Lemma resolve_wf (p : string) :
  os.resolve s p
  = if os.path_ok p then
      descend (files s) (if posixpath.isabs p then [] else cwd s) (Str.split p)
    else None.
Proof. unfold os.resolve. by rewrite follow_wf. Qed.

(** Where a successful resolution ends: at a directory, or at a name
    inside a directory. *)
Lemma descend_target (cur comps p : list string) :
  files s !! cur = Some Dir →
  descend (files s) cur comps = Some p →
  files s !! p = Some Dir
  ∨ ∃ parent n, p = parent ++ [n] ∧ n ∈ comps
                ∧ n ≠ "" ∧ n ≠ "." ∧ n ≠ ".."
                ∧ (String.length n ≤ os.NAME_MAX)%nat
                ∧ files s !! parent = Some Dir.
Proof.
  revert cur.
  induction comps as [|c comps IH]; intros cur Hcur; cbn [descend].
  - intros [= <-]. by left.
  - apply is_dir_true in Hcur as Hd. rewrite Hd. cbn [negb].
    destruct (String.length c <=? os.NAME_MAX)%nat eqn:Hlen; cbn [negb]; [|done].
    apply Nat.leb_le in Hlen.
    destruct comps as [|c' comps].
    + cbn [descend]. intros [= <-]. unfold os.step.
      destruct (decide (c = "")) as [->|H1]; [by left |].
      destruct (decide (c = ".")) as [->|H2]; [by left |].
      rewrite (bool_decide_eq_false_2 (c = "")),
        (bool_decide_eq_false_2 (c = ".")) by done. cbn [orb].
      destruct (decide (c = "..")) as [->|H3].
      * left. cbn. by apply (wf_parent_dir cur Dir).
      * rewrite (bool_decide_eq_false_2 (c = "..")) by done.
        right. exists cur, c. repeat split; try done. by left.
    + intros Hw.
      assert (files s !! os.step cur c = Some Dir) as Hstep.
      { apply is_dir_true. cbn [descend] in Hw.
        by destruct (os.is_dir (files s) (os.step cur c)). }
      destruct (IH _ Hstep Hw) as [?|(parent & n & -> & Hin & ?)]; [by left |].
      right. exists parent, n. split; [done |]. split; [by right | done].
Qed.

(** From the root down to an existing directory. *)
Lemma descend_from_root (p rest : list string) :
  files s !! p = Some Dir →
  descend (files s) [] (p ++ rest) = descend (files s) p rest.
Proof.
  intros Hp.
  rewrite descend_through_dirs;
    [done | by eapply wf_valid_names | by eapply wf_storable |].
  intros q Hq _. by apply (prefix_dir p).
Qed.

(** [os.path.join(os.getcwd(), f)] for a relative [f] is resolved from
    the working directory. *)
Lemma resolve_getcwd_join (f : string) :
  posixpath.isabs f = false →
  os.resolve s (posixpath.join (os.getcwd_string s) f)
  = if os.path_ok (posixpath.join (os.getcwd_string s) f) then
      descend (files s) (cwd s) (Str.split f)
    else None.
Proof.
  intros Habs. destruct (getcwd_join_abs s f) as [Ha Hne].
  rewrite resolve_wf, Ha. destruct (os.path_ok _); [|done].
  rewrite split_getcwd_join by eauto using wf_valid_names, wf_cwd.
  cbn [descend]. rewrite (proj2 (is_dir_true _ _) wf_root).
  cbn [negb Nat.leb String.length].
  change (os.step [] "") with (@nil string).
  apply descend_from_root, wf_cwd.
Qed.

Lemma resolve_getcwd : os.resolve s (os.getcwd_string s) = Some (cwd s).
Proof.
  rewrite resolve_wf. unfold os.getcwd_string.
  rewrite (wf_path_ok _ _ wf_cwd), canonical_cons.
  assert (posixpath.isabs (String Str.sep (Str.join (cwd s))) = true) as ->
    by (by apply startswith_sep; eexists).
  rewrite split_sep_cons. cbn [descend].
  rewrite (proj2 (is_dir_true _ _) wf_root).
  cbn [negb Nat.leb String.length].
  change (os.step [] "") with (@nil string).
  destruct (list_eq_nil_dec (cwd s)) as [Hnil|Hne].
  - rewrite Hnil. cbn. by rewrite (proj2 (is_dir_true _ _) wf_root).
  - rewrite split_join; [| done |].
    + rewrite <- (app_nil_r (cwd s)) at 1. apply descend_from_root, wf_cwd.
    + eapply Forall_impl; [exact (wf_valid_names _ _ wf_cwd) |].
      by intros ? (_ & _ & _ & ?).
Qed.

(** A plain name joined to the working directory names the entry of
    that name in it, if the system accepts the name and the path. *)
Lemma resolve_plain_name (n : string) :
  valid_name n →
  os.resolve s (posixpath.join (os.getcwd_string s) n)
  = if os.path_ok (posixpath.join (os.getcwd_string s) n)
       && (String.length n <=? os.NAME_MAX)%nat
    then Some (cwd s ++ [n]) else None.
Proof.
  intros Hn. pose proof (valid_name_not_abs n "" Hn) as Habs.
  rewrite append_nil_r in Habs.
  rewrite resolve_getcwd_join by done. destruct (os.path_ok _); [|done].
  rewrite split_sepfree by apply Hn. cbn [descend andb].
  rewrite (proj2 (is_dir_true _ _) wf_cwd). cbn [negb].
  destruct (_ <=? _)%nat; [|done]. by rewrite valid_name_step.
Qed.


(** The path of an entry of the working directory resolves to it. *)
Lemma resolve_entry (n : string) (e : entry) :
  files s !! (cwd s ++ [n]) = Some e →
  os.resolve s (posixpath.join (os.getcwd_string s) n) = Some (cwd s ++ [n]).
Proof.
  intros He. pose proof (wf_entry_name _ _ _ He) as Hn.
  pose proof (wf_entry_storable _ _ _ He) as [_ Hlen].
  rewrite resolve_plain_name by done. unfold os.getcwd_string.
  rewrite join_canonical by eauto using wf_valid_names, wf_cwd.
  rewrite (wf_path_ok _ _ He). by rewrite (proj2 (Nat.leb_le _ _) Hlen).
Qed.


End well_formed.

(** ** The listing handler *)

Section listing_facts.

Lemma comprehension_isfile (l : list string) (s : state) :
  comprehension (λ f, d <- os.getcwd ;; os.isfile (posixpath.join d f)) l s
  = (Ok (filter (λ f, os.is_regular s (posixpath.join (os.getcwd_string s) f)
                      = true) l), s).
Proof.
  induction l as [|f l IH]; [done |].
  cbn [comprehension]. unfold bind at 1 2. unfold os.getcwd at 1.
  unfold os.isfile at 1. unfold bind at 1. rewrite IH. unfold ret.
  rewrite filter_cons.
  by destruct (os.is_regular s _) eqn:E; case_decide.
Qed.





End listing_facts.

(** ** The upload handler *)

Lemma files_getitem_contains (key : string) (req : Request) :
  files_contains key req = true
  ↔ is_Some (files_getitem key (request_files req)).
Proof.
  unfold files_contains. rewrite bool_decide_eq_true.
  induction (request_files req) as [|[k f] l IH]; cbn [files_getitem].
  - split; [by intros ?%elem_of_nil | by intros [? ?]].
  - rewrite fmap_cons, elem_of_cons. cbn [fst]. case_bool_decide as Hk.
    + split; [by eexists | by left].
    + rewrite <- IH. split; [intros [?|?]; [by subst | done] | by right].
Qed.

Lemma files_getitem_Some (key : string) (req : Request) (file : FileStorage) :
  files_getitem key (request_files req) = Some file →
  files_contains key req = true.
Proof. intros Hget. apply files_getitem_contains. by eexists. Qed.

(** Two facts about the [file] part of one request: the part is the
    same, and it is not missing. *)
Ltac same_part :=
  match goal with
  | Hc : files_contains ?k ?r = false,
    H : files_getitem ?k (request_files ?r) = Some _ |- _ =>
      by rewrite (files_getitem_Some _ _ _ H) in Hc
  | H : files_getitem ?k ?l = Some _, H' : files_getitem ?k ?l = Some _ |- _ =>
      rewrite H in H'; injection H' as <-
  end.

Section upload_facts.

(** Every run of the upload handler ends in one of these ways. *)
Lemma upload_file_outcome (req : Request) (s : state) :
  upload_outcome req s (upload_file req s).
Proof.
  unfold upload_file.
  destruct (files_contains "file" req) eqn:Hc; cbn [negb];
    [|by constructor].
  pose proof Hc as [file Hget]%files_getitem_contains. rewrite Hget.
  case_bool_decide as Hname; [by econstructor |].
  unfold bind, os.getcwd, save, os.write_file.
  destruct (os.has_nul _) eqn:Hnul; [by eapply upload_null_byte |].
  destruct (os.resolve s _) as [q|] eqn:Hres.
  - destruct (os.is_dir (files s) q) eqn:Hd.
    + apply (upload_raised req s file Hget Hname).
      intros q' Hres'. rewrite Hres in Hres'. injection Hres' as <-.
      by apply is_dir_true.
    + assert (files s !! q ≠ Some Dir) as Hq.
      { intros Hd'%is_dir_true. by rewrite Hd' in Hd. }
      unfold os.print. cbn [stdout_encoding].
      change (check_mark +:+ " Received file: " +:+ filename file)
        with (log_line (filename file)).
      destruct (os.encodable _ _) eqn:Henc.
      * by apply (upload_saved req s file q).
      * by apply (upload_unprinted req s file q).
  - apply (upload_raised req s file Hget Hname).
    intros q' Hres'. by rewrite Hres in Hres'.
Qed.

Lemma path_ok_has_nul (p : string) :
  os.path_ok p = true → os.has_nul p = false.
Proof.
  unfold os.path_ok. intros [[_ H]%andb_true_iff _]%andb_true_iff.
  by apply negb_true_iff.
Qed.

(** A file is only ever written to a valid name in an existing
    directory, under a path that the system accepts. *)
Lemma resolve_target (s : state) (p : string) (q : list string) :
  wf s → posixpath.isabs p = true →
  os.resolve s p = Some q → files s !! q ≠ Some Dir →
  ∃ parent n, q = parent ++ [n] ∧ files s !! parent = Some Dir ∧ valid_name n
              ∧ storable_name n
              ∧ (String.length (os.canonical q) < os.PATH_MAX)%nat.
Proof.
  intros Hwf Habs Hres Hq. rewrite resolve_wf in Hres by done.
  rewrite Habs in Hres. destruct (os.path_ok p) eqn:Hok; [|done].
  pose proof (path_ok_has_nul p Hok) as Hnul.
  apply andb_true_iff in Hok as [_ Hlen%Nat.ltb_lt].
  destruct (descend_target s Hwf [] _ q (wf_root s Hwf) Hres)
    as [?|(parent & n & -> & Hin & H1 & H2 & H3 & Hn & Hpar)]; [done |].
  exists parent, n. do 2 (split; [done |]). split; [|split].
  - repeat split; try done.
    pose proof (split_all_sepfree p) as Hall.
    rewrite Forall_forall in Hall. by apply Hall.
  - split; [|done]. pose proof (has_nul_split p Hnul) as Hall.
    rewrite Forall_forall in Hall. by apply Hall.
  - apply startswith_sep in Habs as [r ->]. rewrite split_sep_cons in Hres.
    apply descend_lexical in Hres. cbn [fold_left] in Hres.
    change (os.step [] "") with (@nil string) in Hres.
    rewrite canonical_length by (by destruct parent). rewrite Hres.
    pose proof (fold_step_weight (Str.split r) []) as Hw.
    rewrite split_weight in Hw. cbn [String.length sum_list_with] in *. lia.
Qed.

(** Saving a regular file below an existing directory keeps the tree
    well formed. *)
Lemma saved_wf (s : state) (parent : list string) (n : string)
    (content : list Byte.byte) :
  wf s → files s !! parent = Some Dir → valid_name n → storable_name n →
  (String.length (os.canonical (parent ++ [n])) < os.PATH_MAX)%nat →
  files s !! (parent ++ [n]) ≠ Some Dir →
  wf (saved s (parent ++ [n]) content).
Proof.
  intros Hwf Hparent Hn Hs Hlen Hq.
  pose proof Hwf as (Hroot & Hcwd & Hp & Hv & Hok).
  assert (∀ p, files s !! p = Some Dir →
               <[parent ++ [n] := File content]> (files s) !! p = Some Dir)
    as Hkeep.
  { intros p Hdir. rewrite lookup_insert_ne; [done |]. by intros <-. }
  unfold wf, saved. cbn [files cwd].
  split; [by apply Hkeep |]. split; [by apply Hkeep |]. split; [|split].
  - intros p e. rewrite lookup_insert. case_decide as Hpq.
    + intros _. subst p. rewrite removelast_last. by apply Hkeep.
    + intros Hl. apply Hkeep. exact (Hp p e Hl).
  - apply map_Forall_insert_2; [|done].
    apply Forall_app. split; [by eapply wf_valid_names |].
    by apply Forall_singleton.
  - apply map_Forall_insert_2; [|done]. split; [|done].
    apply Forall_app. split; [by eapply wf_storable |].
    by apply Forall_singleton.
Qed.

Lemma written_wf (s : state) (parent : list string) (n name : string)
    (content : list Byte.byte) :
  wf s → files s !! parent = Some Dir → valid_name n → storable_name n →
  (String.length (os.canonical (parent ++ [n])) < os.PATH_MAX)%nat →
  files s !! (parent ++ [n]) ≠ Some Dir →
  wf (written s (parent ++ [n]) name content).
Proof. exact (saved_wf s parent n content). Qed.

(** Uploads keep the directory tree well formed. *)
Lemma upload_file_wf (req : Request) (s : state) :
  wf s → wf (POST_upload req s).2.
Proof.
  intros Hwf. unfold POST_upload, dispatch.
  destruct (upload_file_outcome req s)
    as [| | | |file q _ _ Hres Hq _|file q _ _ Hres Hq _]; try done.
  - destruct (resolve_target s _ q Hwf (proj1 (getcwd_join_abs s _)) Hres Hq)
      as (parent & n & -> & ? & ? & ? & ?).
    by apply saved_wf.
  - destruct (resolve_target s _ q Hwf (proj1 (getcwd_join_abs s _)) Hres Hq)
      as (parent & n & -> & ? & ? & ? & ?).
    by apply written_wf.
Qed.

(** Uploads do not change the working directory. *)
Lemma upload_cwd (req : Request) (s : state) :
  cwd (POST_upload req s).2 = cwd s.
Proof.
  unfold POST_upload, dispatch. by destruct (upload_file_outcome req s).
Qed.

(** Nor the encoding of standard output. *)
Lemma upload_stdout_encoding (req : Request) (s : state) :
  stdout_encoding (POST_upload req s).2 = stdout_encoding s.
Proof.
  unfold POST_upload, dispatch. by destruct (upload_file_outcome req s).
Qed.

(** What an upload answered 200 has done. *)
Lemma POST_upload_200 (req : Request) (file : FileStorage) (s : state) :
  files_getitem "file" (request_files req) = Some file →
  status (POST_upload req s).1 = 200 →
  ∃ q, filename file ≠ ""
       ∧ os.resolve s (posixpath.join (os.getcwd_string s) (filename file))
         = Some q
       ∧ files s !! q ≠ Some Dir
       ∧ POST_upload req s
         = (Response 200 (Text "File uploaded successfully"),
            written s q (filename file) (stream file)).
Proof.
  intros Hget. unfold POST_upload, dispatch.
  destruct (upload_file_outcome req s) as [| | | | |file' q Hget' ? ? ? ?];
    try done.
  same_part. intros _. by exists q.
Qed.




End upload_facts.

(** ** The download handler *)

Section download_facts.

Lemma join_abs (root path : string) :
  posixpath.isabs path = true → posixpath.join root path = path.
Proof. unfold posixpath.isabs, posixpath.join. by intros ->. Qed.

Lemma safe_join_getcwd_abs (s : state) (f path : string) :
  safe_join (os.getcwd_string s) f = Some path →
  posixpath.isabs path = true.
Proof.
  unfold safe_join. rewrite getcwd_string_cons.
  rewrite (bool_decide_eq_false_2 (String _ _ = "")) by done.
  destruct (_ || _); [done |]. intros [= <-].
  apply (getcwd_join_abs s).
Qed.

(** The download handler: [safe_join], then the regular-file test, then
    the file's bytes as an attachment. *)
Lemma get_file_spec (root f : string) (s : state) :
  get_file root f s
  = match safe_join (os.getcwd_string s) f with
    | None => (Raise NotFound, s)
    | Some path =>
        match os.resolve s path with
        | Some q =>
            match files s !! q with
            | Some (File c) =>
                (Ok (Response 200 (Attachment (posixpath.basename path) c)), s)
            | _ => (Raise NotFound, s)
            end
        | None => (Raise NotFound, s)
        end
    end.
Proof.
  unfold get_file, bind, os.getcwd, send_from_directory.
  destruct (safe_join (os.getcwd_string s) f) as [path|] eqn:Hsj; [|done].
  rewrite join_abs by by eapply safe_join_getcwd_abs.
  unfold bind, os.isfile, os.is_regular, send_file, bind, os.read_file.
  destruct (os.resolve s path) as [q|] eqn:Hres; [|done].
  destruct (files s !! q) as [[c| |]|] eqn:Hq; cbn [negb]; try done.
  by rewrite Hres, Hq.
Qed.

Lemma get_file_not_regular (root f path : string) (s : state) :
  safe_join (os.getcwd_string s) f = Some path →
  os.is_regular s path = false →
  get_file root f s = (Raise NotFound, s).
Proof.
  intros Hsj Hreg. rewrite get_file_spec, Hsj.
  unfold os.is_regular in Hreg.
  destruct (os.resolve s path) as [q|]; [|done].
  by destruct (files s !! q) as [[c| |]|].
Qed.

(** For an empty filename, which the route of the handler never
    passes, [safe_join] joins the directory and the empty string; the
    result, like the directory itself, names no regular file where the
    working directory is a directory. *)
Lemma empty_filename_names_directory (s : state) :
  wf s →
  os.is_regular s (posixpath.join (os.getcwd_string s) "") = false
  ∧ os.is_regular s (os.getcwd_string s) = false.
Proof.
  intros Hwf. split.
  - by apply is_regular_trailing_sep, join_empty_endswith_sep.
  - unfold os.is_regular. by rewrite resolve_getcwd, (wf_cwd s Hwf).
Qed.

Lemma safe_join_empty (d : string) :
  d ≠ "" → safe_join d "" = Some (posixpath.join d "").
Proof.
  intros Hd. unfold safe_join.
  rewrite (bool_decide_eq_false_2 (d = "")) by done. reflexivity.
Qed.





(** A filename whose normal form names no regular file is not found. *)
Lemma GET_file_missing (root f : string) (s : state) :
  os.is_regular s
    (posixpath.join (os.getcwd_string s) (posixpath.normpath f)) = false →
  GET_file root f s = (Response 404 DefaultNotFound, s).
Proof.
  intros Hreg. unfold GET_file, dispatch.
  destruct (safe_join (os.getcwd_string s) f) as [path|] eqn:Hsj.
  - rewrite (get_file_not_regular root f path s Hsj); [done |].
    destruct (decide (f = "")) as [->|Hf].
    + rewrite safe_join_empty in Hsj by done. injection Hsj as <-.
      by apply is_regular_trailing_sep, join_empty_endswith_sep.
    + unfold safe_join in Hsj. rewrite getcwd_string_cons in Hsj.
      rewrite (bool_decide_eq_false_2 (String _ _ = "")) in Hsj by done.
      rewrite bool_decide_eq_true_2 in Hsj by done.
      destruct (_ || _); [done |]. by injection Hsj as <-.
  - by rewrite get_file_spec, Hsj.
Qed.

(** Whatever is served is a regular file at or below the storage
    directory. *)
Lemma GET_file_confined (root f : string) (s s' : state) (r : response) :
  wf s → GET_file root f s = (r, s') → status r = 200 →
  ∃ names c dn, names ≠ [] ∧ Forall valid_name names
                ∧ files s !! (cwd s ++ names) = Some (File c)
                ∧ r = Response 200 (Attachment dn c).
Proof.
  intros Hwf. pose proof (wf_cwd s Hwf) as Hcwd.
  unfold GET_file, dispatch. rewrite get_file_spec.
  destruct (safe_join _ f) as [path|] eqn:Hsj; [|by intros [= <- <-]].
  destruct (os.resolve s path) as [q|] eqn:Hres; [|by intros [= <- <-]].
  destruct (files s !! q) as [[c| |]|] eqn:Hq; try by intros [= <- <-].
  intros [= <- <-] _.
  destruct (decide (f = "")) as [->|Hf].
  { rewrite safe_join_empty in Hsj by done. injection Hsj as <-.
    rewrite resolve_getcwd_join in Hres by done.
    destruct (os.path_ok _); [|done].
    apply descend_lexical in Hres. subst q.
    change (files s !! cwd s = Some (File c)) in Hq. by rewrite Hcwd in Hq. }
  apply safe_join_Some in Hsj as (Habs & names & Hnames & Hv & ->);
    [| done..].
  destruct (list_eq_nil_dec names) as [->|Hne].
  { rewrite bool_decide_eq_true_2 in Hres by done.
    rewrite resolve_getcwd_join in Hres by done.
    destruct (os.path_ok _); [|done].
    apply descend_lexical in Hres. subst q.
    change (files s !! cwd s = Some (File c)) in Hq. by rewrite Hcwd in Hq. }
  rewrite bool_decide_eq_false_2 in Hres by done.
  destruct (join_valid_names names Hne Hv) as (_ & Hrel & _).
  rewrite resolve_getcwd_join in Hres by done.
  destruct (os.path_ok _); [|done].
  rewrite split_join in Hres; [| done |].
  - apply descend_lexical in Hres. rewrite step_names in Hres by done.
    subst q. by eauto 10.
  - eapply Forall_impl; [exact Hv |]. by intros ? (_ & _ & _ & ?).
Qed.

End download_facts.

(** ** The handlers together *)

Section handlers_together.


(** The round trip: a file uploaded with answer 200 under a name that
    [safe_join] accepts is served back, byte for byte. *)
Lemma upload_then_download (root : string) (req : Request)
    (file : FileStorage) (s : state) :
  wf s → files_getitem "file" (request_files req) = Some file →
  status (POST_upload req s).1 = 200 →
  is_Some (safe_join (os.getcwd_string s) (filename file)) →
  ∃ dn, GET_file root (filename file) (POST_upload req s).2
        = (Response 200 (Attachment dn (stream file)), (POST_upload req s).2).
Proof.
  intros Hwf Hget Hst [path Hsj]. pose proof (wf_cwd s Hwf) as Hcwd.
  pose proof (upload_file_wf req s Hwf) as Hwf1. revert Hwf1.
  destruct (POST_upload_200 req file s Hget Hst)
    as (q & Hname & Hres & Hq & ->).
  cbn [snd]. set (s1 := written s _ _ _). intros Hwf1.
  (* where the upload went, lexically *)
  pose proof Hsj as Hsj'.
  apply safe_join_Some in Hsj' as (Habs & names & Hnames & Hv & Hpath);
    [| done..].
  rewrite resolve_getcwd_join in Hres by done.
  destruct (os.path_ok _); [|done].
  apply descend_lexical in Hres.
  destruct (normpath_comps_spec (filename file)) as [_ Hlex].
  rewrite <- Hlex, Hnames, step_names in Hres by done.
  subst q.
  assert (names ≠ []) as Hne.
  { intros ->. by rewrite app_nil_r, Hcwd in Hq. }
  rewrite (bool_decide_eq_false_2 (names = [])) in Hpath by done.
  destruct (join_valid_names names Hne Hv) as (_ & Hrel & _).
  (* the download finds it there *)
  assert (files s1 !! (cwd s ++ names) = Some (File (stream file))) as Hfile.
  { apply lookup_insert_eq. }
  assert (os.resolve s1 path = Some (cwd s ++ names)) as Hres1.
  { subst path.
    change (os.getcwd_string s) with (os.getcwd_string s1).
    rewrite resolve_getcwd_join by done.
    unfold os.getcwd_string at 1.
    rewrite join_canonical_names;
      [| exact (wf_valid_names s1 Hwf1 _ _ (wf_cwd s1 Hwf1)) | done..].
    change (cwd s1) with (cwd s).
    rewrite (wf_path_ok s1 Hwf1 _ _ Hfile).
    pose proof (wf_storable s1 Hwf1 _ _ Hfile) as [_ Hst']%Forall_app.
    rewrite split_join; [| done |].
    - rewrite <- (app_nil_r names) at 1.
      rewrite descend_through_dirs; [done.. |].
      intros q [r Hr] Hqn.
      apply (ancestor_dir s1 Hwf1 _ r).
      + rewrite <- app_assoc, <- Hr. by eexists.
      + intros ->. by rewrite app_nil_r in Hr.
    - eapply Forall_impl; [exact Hv |]. by intros ? (_ & _ & _ & ?). }
  exists (posixpath.basename path). unfold GET_file, dispatch.
  rewrite get_file_spec.
  change (os.getcwd_string s1) with (os.getcwd_string s).
  by rewrite Hsj, Hres1, Hfile.
Qed.


End handlers_together.

(** ** More on uploads *)

Section more_on_uploads.

(** The upload handler on a part with a non-empty filename. *)
Lemma POST_upload_spec (req : Request) (file : FileStorage) (s : state) :
  files_getitem "file" (request_files req) = Some file →
  filename file ≠ "" →
  POST_upload req s
  = match os.resolve s (posixpath.join (os.getcwd_string s) (filename file)) with
    | Some q =>
        if os.is_dir (files s) q then (Response 500 DefaultServerError, s)
        else if os.encodable (stdout_encoding s) (log_line (filename file))
        then (Response 200 (Text "File uploaded successfully"),
              written s q (filename file) (stream file))
        else (Response 500 DefaultServerError, saved s q (stream file))
    | None => (Response 500 DefaultServerError, s)
    end.
Proof.
  intros Hget Hname. unfold POST_upload, dispatch, upload_file.
  rewrite (files_getitem_Some _ _ _ Hget), Hget. cbn [negb].
  rewrite bool_decide_eq_false_2 by done.
  unfold bind, os.getcwd, save, os.write_file.
  destruct (os.has_nul _) eqn:Hnul.
  { unfold os.resolve, os.path_ok. rewrite Hnul.
    by rewrite andb_false_r. }
  destruct (os.resolve s _) as [q|]; [|done].
  destruct (os.is_dir (files s) q); [done |].
  unfold os.print. cbn [stdout_encoding].
  change (check_mark +:+ " Received file: " +:+ filename file)
    with (log_line (filename file)).
  by destruct (os.encodable _ _).
Qed.

Lemma saved_is_dir (s : state) (q p : list string) (content : list Byte.byte) :
  files s !! q ≠ Some Dir →
  os.is_dir (files (saved s q content)) p = os.is_dir (files s) p.
Proof.
  intros Hq. unfold os.is_dir, saved. cbn [files].
  rewrite lookup_insert. case_decide as Hp; [|done]. subst p.
  by destruct (files s !! q) as [[]|].
Qed.

(** Resolution looks at directories and symbolic links only, and a
    regular file never replaces one of these. *)
Lemma follow_insert_file (fs : gmap (list string) entry) (b : nat)
    (q : list string) (content : list Byte.byte) (cur comps : list string) :
  fs !! q ≠ Some Dir → is_link (default Dir (fs !! q)) = false →
  os.follow (<[q := File content]> fs) b cur comps = os.follow fs b cur comps.
Proof.
  intros Hq Hlink. revert cur comps.
  induction b as [|b IHb]; intros cur comps; revert cur.
  all: induction comps as [|c comps IH]; intros cur;
    [by rewrite !follow_nil |].
  all: rewrite !follow_cons.
  all: replace (os.is_dir (<[q := File content]> fs) cur)
         with (os.is_dir fs cur)
         by (symmetry; by apply (saved_is_dir (State fs [] [] UTF8))).
  all: destruct (negb (os.is_dir fs cur)); [done |].
  all: destruct (negb _); [done |].
  all: rewrite lookup_insert; case_decide as Hp;
    [ rewrite <- Hp in *;
      destruct (fs !! q) as [[| |t]|]; try done; apply IH
    | destruct (fs !! os.step cur c) as [[| |t]|]; try apply IH ].
  - done.
  - apply IHb.
Qed.

(** Saving a file leaves the resolution of every path as it was. *)
Lemma saved_resolve (s : state) (p : string) (q : list string)
    (content : list Byte.byte) (path : string) :
  os.resolve s p = Some q → files s !! q ≠ Some Dir →
  os.resolve (saved s q content) path = os.resolve s path.
Proof.
  intros Hres Hq. unfold os.resolve in *.
  destruct (os.path_ok p); [|discriminate].
  destruct (os.path_ok path); [|reflexivity].
  apply follow_insert_file; [exact Hq |].
  eapply follow_not_link; [apply split_nonempty | exact Hres].
Qed.

(** The upload handler on a part with an empty filename. *)
Lemma POST_upload_no_name (req : Request) (file : FileStorage) (s : state) :
  files_getitem "file" (request_files req) = Some file →
  filename file = "" →
  POST_upload req s = (Response 400 (Text "No selected file"), s).
Proof.
  intros Hget Hname. unfold POST_upload, dispatch, upload_file.
  rewrite (files_getitem_Some _ _ _ Hget), Hget. cbn [negb].
  by rewrite bool_decide_eq_true_2.
Qed.

(** A component that is too long stops resolution, wherever it
    stands. *)
Lemma follow_long_component (fs : gmap (list string) entry) (b : nat)
    (cur comps : list string) (c : string) :
  c ∈ comps → (os.NAME_MAX < String.length c)%nat →
  os.follow fs b cur comps = None.
Proof.
  intros Hin Hlong. revert cur comps Hin.
  induction b as [|b IHb]; intros cur comps; revert cur.
  all: induction comps as [|c' comps IH]; intros cur Hin;
    [by apply elem_of_nil in Hin |].
  all: rewrite follow_cons.
  all: destruct (negb (os.is_dir fs cur)); [done |].
  all: apply elem_of_cons in Hin as [<-|Hin];
    [by rewrite (proj2 (Nat.leb_gt _ _) Hlong) |].
  all: destruct (negb _); [done |].
  all: destruct (fs !! os.step cur c') as [[| |t]|]; try by apply IH.
  - done.
  - apply IHb, elem_of_app. by right.
Qed.

(** The components of the filename are components of the path that is
    opened. *)
Lemma split_join_path (d f c : string) :
  c ∈ Str.split f → c ∈ Str.split (posixpath.join d f).
Proof.
  intros Hin. unfold posixpath.join.
  destruct (Str.startswith f "/"); [done |].
  case_bool_decide as Hd; cbn [orb]; [by subst d |].
  destruct (Str.endswith_sep d) eqn:He.
  - apply endswith_sep_inv in He as [a ->].
    rewrite append_assoc, append_cons, append_nil_l, split_app_sep.
    apply elem_of_app. by right.
  - change ("/" +:+ f) with (String Str.sep f). rewrite split_app_sep.
    apply elem_of_app. by right.
Qed.

Lemma has_nul_join_path (d f : string) :
  os.has_nul f = true → os.has_nul (posixpath.join d f) = true.
Proof.
  intros Hf. unfold posixpath.join.
  destruct (Str.startswith f "/"); [done |].
  destruct (_ || _); rewrite !has_nul_append, Hf; by rewrite !orb_true_r.
Qed.





End more_on_uploads.

(** ** More on downloads *)

Section more_on_downloads.

(** Once [normpath] has kept a leading [..], it stays. *)
Lemma normpath_step_head (acc : list string) (c : string) :
  head acc = Some ".." →
  head (posixpath.normpath_step 0 acc c) = Some "..".
Proof.
  destruct acc as [|a acc]; [done |]. intros [= ->].
  unfold posixpath.normpath_step.
  destruct (bool_decide (c = "") || bool_decide (c = ".")); [done |].
  rewrite (bool_decide_eq_false_2 (".." :: acc = [])) by done.
  cbn [negb andb].
  destruct (_ || _) eqn:Hcond; [done |].
  destruct acc as [|b acc]; [|done].
  rewrite !orb_false_iff in Hcond. destruct Hcond as [_ Hlast].
  by rewrite bool_decide_eq_true_2 in Hlast.
Qed.

Lemma normpath_fold_head (comps acc : list string) :
  head acc = Some ".." →
  head (fold_left (posixpath.normpath_step 0) comps acc) = Some "..".
Proof.
  revert acc. induction comps as [|c comps IH]; intros acc Hacc; [done |].
  cbn [fold_left]. by apply IH, normpath_step_head.
Qed.

Lemma normal_form_sepfree (l : list string) :
  normal_form l → Forall (λ c, Str.sepfree c = true) l.
Proof.
  intros (k & names & -> & Hv). apply Forall_app. split.
  - apply Forall_forall. by intros c [-> _]%elem_of_replicate.
  - eapply Forall_impl; [exact Hv |]. by intros ? (_ & _ & _ & ?).
Qed.

(** The string of a non-empty normal form: not empty, not absolute. *)
Lemma join_normal_form (l : list string) :
  normal_form l → l ≠ [] →
  Str.join l ≠ "" ∧ posixpath.isabs (Str.join l) = false.
Proof.
  intros (k & names & -> & Hv) Hne. destruct k as [|k].
  - cbn [replicate app] in *.
    by destruct (join_valid_names names Hne Hv) as (? & ? & _).
  - rewrite replicate_S. cbn [app].
    destruct (replicate k ".." ++ names) as [|y l]; [done |].
    rewrite join_cons_cons, !append_cons. done.
Qed.

(** [normpath] on a relative, non-empty path. *)
Lemma normpath_relative (f : string) :
  f ≠ "" → posixpath.isabs f = false →
  posixpath.normpath f
  = if bool_decide (posixpath.normpath_comps 0 (Str.split f) = []) then "."
    else Str.join (posixpath.normpath_comps 0 (Str.split f)).
Proof.
  intros Hf Habs. unfold posixpath.normpath.
  rewrite (bool_decide_eq_false_2 (f = "")) by done.
  rewrite initial_slashes_relative by done.
  cbn [posixpath.slashes_string]. rewrite append_nil_l.
  destruct (normpath_comps_spec f) as [Hnf _].
  destruct (decide (posixpath.normpath_comps 0 (Str.split f) = []))
    as [Hcomps|Hcomps].
  - rewrite Hcomps. done.
  - destruct (join_normal_form _ Hnf Hcomps) as [Hj _].
    by rewrite !bool_decide_eq_false_2.
Qed.

(** A normal form is left as it is. *)
Lemma normpath_comps_normal_form (l : list string) :
  normal_form l → posixpath.normpath_comps 0 l = l.
Proof.
  intros (k & names & -> & Hv). unfold posixpath.normpath_comps.
  rewrite fold_left_app.
  assert (∀ j, fold_left (posixpath.normpath_step 0) (replicate k "..")
                 (replicate j "..") = replicate (j + k) "..") as Hdots.
  { induction k as [|k IH]; intros j.
    - by rewrite Nat.add_0_r.
    - cbn [replicate fold_left].
      replace (posixpath.normpath_step 0 (replicate j "..") "..")
        with (replicate (S j) "..").
      + rewrite IH. f_equal. lia.
      + rewrite replicate_S_end. unfold posixpath.normpath_step.
        destruct j as [|j]; [done |].
        rewrite (bool_decide_eq_false_2 (replicate (S j) ".." = [])) by done.
        rewrite (replicate_S_end j), last_snoc. done. }
  specialize (Hdots 0%nat).
  change (replicate 0 "..") with (@nil string) in Hdots.
  rewrite Hdots. cbn [Nat.add].
  generalize (replicate k ".."). clear Hdots.
  induction Hv as [|c names (H1 & H2 & H3 & _) _ IH]; intros acc.
  - by rewrite app_nil_r.
  - cbn [fold_left].
    replace (posixpath.normpath_step 0 acc c) with (acc ++ [c]).
    + by rewrite IH, <- app_assoc.
    + unfold posixpath.normpath_step.
      by rewrite (bool_decide_eq_false_2 (c = "")),
        (bool_decide_eq_false_2 (c = ".")),
        (bool_decide_eq_false_2 (c = "..")).
Qed.

(** [normpath] is idempotent on relative paths. *)
Lemma normpath_idempotent (f : string) :
  f ≠ "" → posixpath.isabs f = false →
  posixpath.normpath (posixpath.normpath f) = posixpath.normpath f.
Proof.
  intros Hf Habs. rewrite (normpath_relative f) by done.
  destruct (normpath_comps_spec f) as [Hnf _].
  case_bool_decide as Hcomps; [done |].
  destruct (join_normal_form _ Hnf Hcomps) as [Hj Hrel].
  rewrite normpath_relative by done.
  rewrite split_join by (done || by apply normal_form_sepfree).
  rewrite normpath_comps_normal_form by done.
  by rewrite bool_decide_eq_false_2.
Qed.

(** [safe_join] sees a filename through its normal form only. *)
Lemma safe_join_normpath (d f : string) :
  f ≠ "" → safe_join d (posixpath.normpath f) = safe_join d f.
Proof.
  intros Hf.
  assert (posixpath.normpath f ≠ "") as Hn.
  { unfold posixpath.normpath.
    rewrite (bool_decide_eq_false_2 (f = "")) by done.
    by case_bool_decide. }
  destruct (posixpath.isabs f) eqn:Habs.
  - pose proof (normpath_isabs f Habs) as Habs'.
    pose proof (normpath_isabs _ Habs') as Habs''.
    unfold safe_join.
    rewrite (bool_decide_eq_true_2 (f ≠ "")),
      (bool_decide_eq_true_2 (posixpath.normpath f ≠ "")) by done.
    rewrite Habs', Habs''. by cbn [_os_alt_seps existsb orb].
  - unfold safe_join.
    rewrite (bool_decide_eq_true_2 (f ≠ "")),
      (bool_decide_eq_true_2 (posixpath.normpath f ≠ "")) by done.
    by rewrite normpath_idempotent.
Qed.

Lemma startswith_dotdot_sep (f : string) :
  Str.startswith f "../" = true →
  ∃ r, f = String "." (String "." (String Str.sep r)).
Proof.
  destruct f as [|a [|b [|c r]]]; cbn [Str.startswith];
    rewrite ?andb_false_r; try done.
  intros [<-%Ascii.eqb_eq [<-%Ascii.eqb_eq [<-%Ascii.eqb_eq _]%andb_true_iff
            ]%andb_true_iff]%andb_true_iff.
  by eexists.
Qed.

(** [safe_join] refuses every filename that is absolute or starts with
    a [..] component. *)
Lemma safe_join_None (d f : string) :
  posixpath.isabs f = true ∨ f = ".." ∨ Str.startswith f "../" = true →
  safe_join d f = None.
Proof.
  intros [Habs|Hdd].
  - unfold safe_join.
    rewrite (bool_decide_eq_true_2 (f ≠ "")) by (by intros ->).
    rewrite (normpath_isabs f Habs). by cbn [_os_alt_seps existsb orb].
  - assert (∃ rest, Str.split f = ".." :: rest ∧ f ≠ ""
                    ∧ posixpath.isabs f = false) as (rest & Hsplit & Hf & Hrel).
    { destruct Hdd as [->|(r & ->)%startswith_dotdot_sep].
      - by exists [].
      - exists (Str.split r). split; [|done].
        change (String "." (String "." (String Str.sep r)))
          with (".." +:+ String Str.sep r).
        by rewrite split_app_sep. }
    unfold safe_join. rewrite (bool_decide_eq_true_2 (f ≠ "")) by done.
    rewrite normpath_relative by done.
    pose proof (normpath_fold_head rest [".."] eq_refl) as Hhead.
    unfold posixpath.normpath_comps. rewrite Hsplit. cbn [fold_left].
    change (posixpath.normpath_step 0 [] "..") with [".."].
    destruct (fold_left _ rest [".."]) as [|a [|y l]]; [done | |];
      injection Hhead as ->.
    + by rewrite bool_decide_eq_false_2.
    + rewrite bool_decide_eq_false_2 by done.
      rewrite join_cons_cons, !append_cons, append_nil_l.
      assert (∀ r, Str.startswith
                     (String "." (String "." (String Str.sep r))) "../" = true)
        as -> by (by intros []).
      by rewrite orb_true_r.
Qed.


End more_on_downloads.

(** ** The sample states *)

Lemma empty_store_wf : wf empty_store.
Proof. apply (bool_decide_unpack (wf empty_store)). vm_compute. exact I. Qed.


Lemma sample_store_wf : wf sample_store.
Proof. apply (bool_decide_unpack (wf sample_store)). vm_compute. exact I. Qed.

(** ** The claims of the specification *)

(** C1, as the code has it. In a directory tree without symbolic
    links, an upload that is answered 200, under a filename that the
    download's [safe_join] accepts, is served back by the next download:
    status 200 and exactly the uploaded bytes. *)
Theorem upload_download_roundtrip (root : string) (req : Request)
    (file : FileStorage) (s : state) :
  wf s → files_getitem "file" (request_files req) = Some file →
  status (POST_upload req s).1 = 200 →
  is_Some (safe_join (os.getcwd_string s) (filename file)) →
  ∃ dn, GET_file root (filename file) (POST_upload req s).2
        = (Response 200 (Attachment dn (stream file)), (POST_upload req s).2).
Proof. apply upload_then_download. Qed.

Lemma upload_download_roundtrip_witness :
  wf empty_store
  ∧ status (POST_upload (file_request "notes.txt" (bytes "hello"))
              empty_store).1 = 200
  ∧ is_Some (safe_join (os.getcwd_string empty_store) "notes.txt")
  ∧ ∃ dn, GET_file "/app" "notes.txt"
            (POST_upload (file_request "notes.txt" (bytes "hello"))
               empty_store).2
          = (Response 200 (Attachment dn (bytes "hello")),
             (POST_upload (file_request "notes.txt" (bytes "hello"))
                empty_store).2).
Proof.
  assert (is_Some (safe_join (os.getcwd_string empty_store) "notes.txt"))
    as Hsj by (by vm_compute; eexists).
  split; [exact empty_store_wf |]. split; [by vm_compute |].
  split; [exact Hsj |].
  apply (upload_download_roundtrip "/app"
           (file_request "notes.txt" (bytes "hello"))
           {| filename := "notes.txt"; stream := bytes "hello" |}
           empty_store empty_store_wf); [done | by vm_compute | exact Hsj].
Defined.

(** C1, as stated, fails: the upload of [../backup.txt] is valid and is
    answered 200, and the download of the same filename answers 404. *)
Lemma upload_download_roundtrip_fails :
  let request := file_request "../backup.txt" (bytes "hello") in
  files_contains "file" request = true
  ∧ (POST_upload request empty_store).1
    = Response 200 (Text "File uploaded successfully")
  ∧ (GET_file "/app" "../backup.txt" (POST_upload request empty_store).2).1
    = Response 404 DefaultNotFound.
Proof. by vm_compute. Qed.

(** C2. The upload handler answers 400 exactly when the request has no
    [file] part (body "No file part") or the part's filename is empty
    (body "No selected file"); in both cases the process state, and so
    the storage directory, is left as it was. *)
Theorem upload_400_iff (req : Request) (s : state) :
  (status (POST_upload req s).1 = 400
   ↔ files_contains "file" req = false
     ∨ ∃ file, files_getitem "file" (request_files req) = Some file
               ∧ filename file = "")
  ∧ (files_contains "file" req = false →
     POST_upload req s = (Response 400 (Text "No file part"), s))
  ∧ (∀ file, files_getitem "file" (request_files req) = Some file →
             filename file = "" →
             POST_upload req s = (Response 400 (Text "No selected file"), s)).
Proof.
  unfold POST_upload, dispatch.
  destruct (upload_file_outcome req s)
    as [Hc|file Hget Hnil|file Hget Hname _|file Hget Hname _
       |file q Hget Hname _ _ _|file q Hget Hname _ _ _]; cbn [fst].
  1: { split; [split; [by left | done] |]. split; [done |].
       intros file Hget _. same_part. }
  1: { split; [split; [right; by eexists | done] |]. split; [|done].
       intros Hc. same_part. }
  all: split;
    [split; [done | intros [Hc|(file' & Hget' & Hnil)]; by same_part] |].
  all: split; [intros Hc; same_part | intros file' Hget' Hnil; by same_part].
Qed.

Lemma upload_400_iff_witness :
  POST_upload {| request_files := [] |} sample_store
  = (Response 400 (Text "No file part"), sample_store)
  ∧ POST_upload (file_request "" (bytes "hello")) sample_store
    = (Response 400 (Text "No selected file"), sample_store).
Proof.
  split.
  - by apply (upload_400_iff {| request_files := [] |} sample_store).
  - by apply (proj2 (proj2 (upload_400_iff (file_request "" (bytes "hello"))
                              sample_store))
                {| filename := ""; stream := bytes "hello" |}).
Defined.

(** C3, as the code has it. In a directory tree without symbolic
    links, when the same filename is uploaded twice with different
    contents, the second upload is answered 200 and the download's
    [safe_join] accepts the filename, the download that follows returns
    the second content, and not the first. *)
Theorem second_upload_wins (root : string) (req1 req2 : Request)
    (file1 file2 : FileStorage) (s : state) :
  wf s →
  files_getitem "file" (request_files req1) = Some file1 →
  files_getitem "file" (request_files req2) = Some file2 →
  filename file1 = filename file2 → stream file1 ≠ stream file2 →
  status (POST_upload req2 (POST_upload req1 s).2).1 = 200 →
  is_Some (safe_join (os.getcwd_string s) (filename file2)) →
  ∃ dn, GET_file root (filename file2)
          (POST_upload req2 (POST_upload req1 s).2).2
        = (Response 200 (Attachment dn (stream file2)),
           (POST_upload req2 (POST_upload req1 s).2).2)
        ∧ Attachment dn (stream file2) ≠ Attachment dn (stream file1).
Proof.
  intros Hwf _ Hget2 _ Hdiff Hst Hsj.
  pose proof (upload_file_wf req1 s Hwf) as Hwf1.
  assert (os.getcwd_string (POST_upload req1 s).2 = os.getcwd_string s) as Hd.
  { unfold os.getcwd_string. by rewrite upload_cwd. }
  rewrite <- Hd in Hsj.
  destruct (upload_then_download root req2 file2 _ Hwf1 Hget2 Hst Hsj)
    as [dn Hget].
  exists dn. split; [done |]. intros [= Heq]. by destruct Hdiff.
Qed.

Lemma second_upload_wins_witness :
  let req1 := file_request "notes.txt" (bytes "v1") in
  let req2 := file_request "notes.txt" (bytes "v2") in
  ∃ dn, GET_file "/app" "notes.txt"
          (POST_upload req2 (POST_upload req1 empty_store).2).2
        = (Response 200 (Attachment dn (bytes "v2")),
           (POST_upload req2 (POST_upload req1 empty_store).2).2)
        ∧ Attachment dn (bytes "v2") ≠ Attachment dn (bytes "v1").
Proof.
  apply (second_upload_wins "/app"
           (file_request "notes.txt" (bytes "v1"))
           (file_request "notes.txt" (bytes "v2"))
           {| filename := "notes.txt"; stream := bytes "v1" |}
           {| filename := "notes.txt"; stream := bytes "v2" |}
           empty_store empty_store_wf); done.
Defined.

(** C3, as stated, fails: [../notes.txt] is uploaded twice with
    different contents, both uploads are answered 200, and the download
    of that filename answers 404 instead of the second content. *)
Lemma second_upload_not_served :
  let req1 := file_request "../notes.txt" (bytes "v1") in
  let req2 := file_request "../notes.txt" (bytes "v2") in
  (POST_upload req1 empty_store).1
  = Response 200 (Text "File uploaded successfully")
  ∧ (POST_upload req2 (POST_upload req1 empty_store).2).1
    = Response 200 (Text "File uploaded successfully")
  ∧ (GET_file "/app" "../notes.txt"
       (POST_upload req2 (POST_upload req1 empty_store).2).2).1
    = Response 404 DefaultNotFound.
Proof. by vm_compute. Qed.

(** C4, as the code has it. When the filename, normalised lexically as
    [posixpath.normpath] does, names no regular file from the storage
    directory, the download answers Flask's default 404 and changes
    nothing. *)
Theorem download_missing_404 (root f : string) (s : state) :
  os.is_regular s
    (posixpath.join (os.getcwd_string s) (posixpath.normpath f)) = false →
  GET_file root f s = (Response 404 DefaultNotFound, s).
Proof. apply GET_file_missing. Qed.

Lemma download_missing_404_witness :
  os.is_regular sample_store
    (posixpath.join (os.getcwd_string sample_store)
       (posixpath.normpath "missing.txt")) = false
  ∧ GET_file "/app" "missing.txt" sample_store
    = (Response 404 DefaultNotFound, sample_store).
Proof.
  split; [by vm_compute |].
  apply (download_missing_404 "/app" "missing.txt" sample_store).
  by vm_compute.
Defined.

(** C4, as stated, fails: the operating system finds no file named
    [ghost/../notes.txt] in the storage directory ([ghost] does not
    exist) and the directory has no entry of that name, yet the download
    answers 200 with the bytes of [notes.txt]. *)
Lemma download_unresolvable_name_served :
  os.is_regular sample_store
    (posixpath.join (os.getcwd_string sample_store) "ghost/../notes.txt")
  = false
  ∧ files sample_store !! (cwd sample_store ++ ["ghost/../notes.txt"]) = None
  ∧ GET_file "/app" "ghost/../notes.txt" sample_store
    = (Response 200 (Attachment "notes.txt" (bytes "hello")), sample_store).
Proof. by vm_compute. Qed.




(** C6, evaluated at the failing input. The upload of [../evil.txt] is
    answered 200 and the file is written to [/srv/evil.txt], outside of
    the storage directory [/srv/store], which stays empty. *)
Theorem upload_escapes_storage_directory :
  let out := POST_upload (file_request "../evil.txt" (bytes "x")) empty_store in
  out.1 = Response 200 (Text "File uploaded successfully")
  ∧ files out.2 !! ["srv"; "evil.txt"] = Some (File (bytes "x"))
  ∧ os.children (files out.2) (cwd out.2) = []
  ∧ ¬ cwd out.2 `prefix_of` ["srv"; "evil.txt"].
Proof.
  split; [by vm_compute |]. split; [by vm_compute |]. split; [by vm_compute |].
  intros [k Hk]. vm_compute in Hk. discriminate Hk.
Qed.

(** C7, as the code has it. In a directory tree without symbolic links,
    a filename that resolves, from the storage directory, to a location
    outside of it is never served: the download answers Flask's default
    404 and changes nothing. *)
Theorem download_outside_rejected (root f : string) (s : state)
    (p : list string) :
  wf s →
  os.resolve s (posixpath.join (os.getcwd_string s) f) = Some p →
  ¬ cwd s `prefix_of` p →
  GET_file root f s = (Response 404 DefaultNotFound, s).
Proof.
  intros Hwf Hres Hout. unfold GET_file, dispatch.
  rewrite get_file_spec.
  destruct (safe_join (os.getcwd_string s) f) as [path|] eqn:Hsj; [|done].
  exfalso. apply Hout.
  destruct (decide (f = "")) as [->|Hf].
  - rewrite resolve_getcwd_join in Hres by done.
    destruct (os.path_ok _); [|done].
    apply descend_lexical in Hres as ->. done.
  - apply safe_join_Some in Hsj as (Habs & names & Hnames & Hv & _);
      [| done..].
    rewrite resolve_getcwd_join in Hres by done.
    destruct (os.path_ok _); [|done].
    apply descend_lexical in Hres as ->.
    destruct (normpath_comps_spec f) as [_ <-].
    rewrite Hnames, step_names by done. by apply prefix_app_r.
Qed.

Lemma download_outside_rejected_witness :
  wf sample_store
  ∧ os.resolve sample_store
      (posixpath.join (os.getcwd_string sample_store) "../secret.txt")
    = Some ["srv"; "secret.txt"]
  ∧ ¬ cwd sample_store `prefix_of` ["srv"; "secret.txt"]
  ∧ GET_file "/app" "../secret.txt" sample_store
    = (Response 404 DefaultNotFound, sample_store).
Proof.
  assert (¬ cwd sample_store `prefix_of` ["srv"; "secret.txt"]) as Hout.
  { intros [k Hk]. cbn in Hk. discriminate Hk. }
  split; [exact sample_store_wf |]. split; [by vm_compute |].
  split; [exact Hout |].
  apply (download_outside_rejected "/app" "../secret.txt" sample_store
           ["srv"; "secret.txt"] sample_store_wf); [by vm_compute | exact Hout].
Defined.

(** C7, as stated, fails: the storage directory holds the symbolic
    link [link] to its parent directory.  The filename [link/secret.txt]
    has no [..] segment and is accepted by [safe_join], which reads the
    name and not the directory tree; the operating system follows the
    link, and the download serves [/srv/secret.txt], which lies outside
    of the storage directory. *)
Lemma download_through_link_served :
  os.resolve link_store
    (posixpath.join (os.getcwd_string link_store) "link/secret.txt")
  = Some ["srv"; "secret.txt"]
  ∧ ¬ cwd link_store `prefix_of` ["srv"; "secret.txt"]
  ∧ GET_file "/app" "link/secret.txt" link_store
    = (Response 200 (Attachment "secret.txt" (bytes "key")), link_store).
Proof.
  split; [by vm_compute |]. split; [|by vm_compute].
  intros [k Hk]. vm_compute in Hk. discriminate Hk.
Qed.




(** C9. The listing and the download handler are read-only: whatever
    the request and whatever the answer, the process state, and so the
    storage directory, is the same after as before. *)
Theorem handlers_read_only (root f : string) (s : state) :
  (GET_files s).2 = s ∧ (GET_file root f s).2 = s.
Proof.
  split.
  - unfold GET_files, dispatch, list_files, bind, os.getcwd, os.listdir.
    destruct (os.resolve s _) as [q|]; [|done].
    destruct (os.is_dir (files s) q); [|done].
    by rewrite comprehension_isfile.
  - unfold GET_file, dispatch. rewrite get_file_spec.
    destruct (safe_join _ f) as [path|]; [|done].
    destruct (os.resolve s path) as [q|]; [|done].
    by destruct (files s !! q) as [[c| |]|].
Qed.



(** ** The scenario of the specification *)

(** Upload [notes.txt] with body [hello]; list; download. *)
Example scenario_notes :
  let up := POST_upload (file_request "notes.txt" (bytes "hello")) empty_store in
  up.1 = Response 200 (Text "File uploaded successfully")
  ∧ (GET_files up.2).1 = Response 200 (JsonFiles ["notes.txt"])
  ∧ (GET_file "/app" "notes.txt" up.2).1
    = Response 200 (Attachment "notes.txt" (bytes "hello")).
Proof. by vm_compute. Qed.

(** ** What the system refuses *)

(** A filename with a NUL byte: [open] raises [ValueError], the answer
    is 500 and nothing is written. *)
Example upload_null_byte_name :
  POST_upload (file_request (String "a" (String Ascii.zero "b")) (bytes "x"))
    empty_store
  = (Response 500 DefaultServerError, empty_store).
Proof. by vm_compute. Qed.

(** A name of 255 bytes is written, a name of 256 bytes is refused:
    the answer is 500 and nothing is written. *)
Example upload_long_name :
  (POST_upload (file_request (long_name 255) (bytes "x")) empty_store).1
  = Response 200 (Text "File uploaded successfully")
  ∧ POST_upload (file_request (long_name 256) (bytes "x")) empty_store
    = (Response 500 DefaultServerError, empty_store).
Proof. by vm_compute. Qed.

(** A standard output that cannot encode the check mark: the file is
    saved, then [print] raises; the answer is 500 and the file is on
    disk. *)
Example upload_ascii_stdout :
  POST_upload (file_request "a.txt" (bytes "x")) ascii_store
  = (Response 500 DefaultServerError,
     saved ascii_store ["srv"; "store"; "a.txt"] (bytes "x")).
Proof. by vm_compute. Qed.

(** An upload under the name of a symbolic link writes where the link
    leads. *)
Example upload_through_link :
  let out := POST_upload (file_request "link/new.txt" (bytes "x")) link_store in
  out.1 = Response 200 (Text "File uploaded successfully")
  ∧ files out.2 !! ["srv"; "new.txt"] = Some (File (bytes "x")).
Proof. by vm_compute. Qed.

(** ** Further properties of the upload handler *)

(** X1. Uploads keep the directory tree well formed: whatever the
    request and whatever the answer, every entry still lies in a
    directory, the names are proper names that the system accepts, the
    paths are shorter than the limit, there is still no symbolic link,
    and the working directory is still a directory. *)
Theorem upload_keeps_well_formed (req : Request) (s : state) :
  wf s → wf (POST_upload req s).2.
Proof. apply upload_file_wf. Qed.

Lemma upload_keeps_well_formed_witness :
  wf sample_store
  ∧ wf (POST_upload (file_request "docs/b.txt" (bytes "b")) sample_store).2.
Proof.
  split; [exact sample_store_wf |].
  exact (upload_keeps_well_formed (file_request "docs/b.txt" (bytes "b"))
           sample_store sample_store_wf).
Defined.

(** X2. An upload never creates and never removes a directory, and
    never changes the working directory: the directories after any
    upload are those before it. *)
Theorem upload_creates_no_directory (req : Request) (s : state)
    (p : list string) :
  (files (POST_upload req s).2 !! p = Some Dir ↔ files s !! p = Some Dir)
  ∧ cwd (POST_upload req s).2 = cwd s.
Proof.
  split; [|apply upload_cwd]. unfold POST_upload, dispatch.
  destruct (upload_file_outcome req s)
    as [| | | |file q _ _ _ Hq _|file q _ _ _ Hq _]; try done.
  all: cbn [snd saved written files]; rewrite lookup_insert.
  all: case_decide as Hp; [|done].
  all: subst p; split; [done | by intros ?].
Qed.




(** X5. An upload answered 200 prints exactly one line, which ends in
    the filename of the part; the lines printed before stay. *)
Theorem upload_prints_one_line (req : Request) (file : FileStorage)
    (s : state) :
  files_getitem "file" (request_files req) = Some file →
  status (POST_upload req s).1 = 200 →
  stdout (POST_upload req s).2
  = stdout s ++ [check_mark +:+ " Received file: " +:+ filename file].
Proof.
  intros Hget Hst.
  by destruct (POST_upload_200 req file s Hget Hst) as (q & _ & _ & _ & ->).
Qed.

Lemma upload_prints_one_line_witness :
  let req := file_request "a.txt" (bytes "a") in
  status (POST_upload req sample_store).1 = 200
  ∧ stdout (POST_upload req sample_store).2
    = stdout sample_store ++ [check_mark +:+ " Received file: " +:+ "a.txt"].
Proof.
  assert (status (POST_upload (file_request "a.txt" (bytes "a"))
                    sample_store).1 = 200) as Hst by (by vm_compute).
  split; [exact Hst |].
  exact (upload_prints_one_line (file_request "a.txt" (bytes "a"))
           {| filename := "a.txt"; stream := bytes "a" |}
           sample_store eq_refl Hst).
Defined.

(** X6. The upload of a plain name that is the name of a subdirectory
    of the storage directory raises: the answer is 500 and nothing is
    changed. *)
Theorem upload_directory_name_500 (req : Request) (file : FileStorage)
    (s : state) :
  wf s → files_getitem "file" (request_files req) = Some file →
  valid_name (filename file) →
  files s !! (cwd s ++ [filename file]) = Some Dir →
  POST_upload req s = (Response 500 DefaultServerError, s).
Proof.
  intros Hwf Hget Hn Hdir.
  rewrite (POST_upload_spec req file s Hget) by apply Hn.
  rewrite (resolve_entry s Hwf _ _ Hdir).
  by rewrite (proj2 (is_dir_true _ _) Hdir).
Qed.

Lemma upload_directory_name_500_witness :
  wf sample_store ∧ valid_name "docs"
  ∧ files sample_store !! (cwd sample_store ++ ["docs"]) = Some Dir
  ∧ POST_upload (file_request "docs" (bytes "x")) sample_store
    = (Response 500 DefaultServerError, sample_store).
Proof.
  assert (valid_name "docs") as Hn by (by vm_compute).
  assert (files sample_store !! (cwd sample_store ++ ["docs"]) = Some Dir)
    as Hdir by (by vm_compute).
  split; [exact sample_store_wf |]. split; [exact Hn |]. split; [exact Hdir |].
  exact (upload_directory_name_500 (file_request "docs" (bytes "x"))
           {| filename := "docs"; stream := bytes "x" |}
           sample_store sample_store_wf eq_refl Hn Hdir).
Defined.



(** X8. Where an upload lands. In a directory tree without symbolic
    links, an upload answered 200 has stored the bytes of the part at
    the place that the components of the filename lead to, followed
    from the working directory, or from the root when the filename is
    absolute: [.] and empty components stay, [..] goes up, a name goes
    down. *)
Theorem upload_lands_where_the_name_leads (req : Request)
    (file : FileStorage) (s : state) :
  wf s → files_getitem "file" (request_files req) = Some file →
  status (POST_upload req s).1 = 200 →
  files (POST_upload req s).2
    !! fold_left os.step (Str.split (filename file))
         (if posixpath.isabs (filename file) then [] else cwd s)
  = Some (File (stream file)).
Proof.
  intros Hwf Hget Hst.
  destruct (POST_upload_200 req file s Hget Hst) as (q & Hne & Hres & _ & ->).
  cbn [snd written files].
  destruct (posixpath.isabs (filename file)) eqn:Habs.
  - rewrite join_abs in Hres by done. rewrite resolve_wf in Hres by done.
    rewrite Habs in Hres. destruct (os.path_ok _); [|done].
    apply descend_lexical in Hres as <-. apply lookup_insert_eq.
  - rewrite resolve_getcwd_join in Hres by done.
    destruct (os.path_ok _); [|done].
    apply descend_lexical in Hres as <-. apply lookup_insert_eq.
Qed.

Lemma upload_lands_where_the_name_leads_witness :
  let req := file_request "docs/./b.txt" (bytes "b") in
  wf sample_store
  ∧ status (POST_upload req sample_store).1 = 200
  ∧ files (POST_upload req sample_store).2 !! ["srv"; "store"; "docs"; "b.txt"]
    = Some (File (bytes "b")).
Proof.
  assert (status (POST_upload (file_request "docs/./b.txt" (bytes "b"))
                    sample_store).1 = 200) as Hst by (by vm_compute).
  split; [exact sample_store_wf |]. split; [exact Hst |].
  exact (upload_lands_where_the_name_leads
           (file_request "docs/./b.txt" (bytes "b"))
           {| filename := "docs/./b.txt"; stream := bytes "b" |}
           sample_store sample_store_wf eq_refl Hst).
Defined.

(** X9. On disk the last write wins, for every filename: after two
    uploads under the same filename, the second is answered as if the
    first had not been made, and the directory tree is the one that the
    second upload alone would have left. *)
Theorem second_upload_replaces_first (req1 req2 : Request)
    (file1 file2 : FileStorage) (s : state) :
  files_getitem "file" (request_files req1) = Some file1 →
  files_getitem "file" (request_files req2) = Some file2 →
  filename file1 = filename file2 →
  (POST_upload req2 (POST_upload req1 s).2).1 = (POST_upload req2 s).1
  ∧ files (POST_upload req2 (POST_upload req1 s).2).2
    = files (POST_upload req2 s).2.
Proof.
  intros Hget1 Hget2 Hsame.
  destruct (decide (filename file2 = "")) as [Hnil|Hname].
  { rewrite (POST_upload_no_name req1 file1 s) by congruence.
    cbn [snd].
    by rewrite (POST_upload_no_name req2 file2 s). }
  rewrite (POST_upload_spec req1 file1 s Hget1) by congruence.
  rewrite Hsame.
  destruct (os.resolve s _) as [q|] eqn:Hres; [|done].
  destruct (os.is_dir (files s) q) eqn:Hdir; [done |].
  assert (files s !! q ≠ Some Dir) as Hq.
  { intros Hd%is_dir_true. by rewrite Hd in Hdir. }
  pose proof (saved_resolve s _ q (stream file1)
                (posixpath.join (os.getcwd_string s) (filename file2))
                Hres Hq) as Hres1.
  pose proof (saved_is_dir s q q (stream file1) Hq) as Hdir1.
  rewrite Hres in Hres1. rewrite Hdir in Hdir1.
  assert (∀ s1, files s1 = files (saved s q (stream file1)) →
                cwd s1 = cwd s → stdout_encoding s1 = stdout_encoding s →
                (POST_upload req2 s1).1 = (POST_upload req2 s).1
                ∧ files (POST_upload req2 s1).2 = files (POST_upload req2 s).2)
    as Hsecond.
  { intros s1 Hfiles Hcwd Henc.
    rewrite !(POST_upload_spec req2 file2 _ Hget2 Hname), Hres.
    replace (os.resolve s1
               (posixpath.join (os.getcwd_string s1) (filename file2)))
      with (Some q)
      by (unfold os.resolve, os.getcwd_string in *;
          by rewrite Hfiles, Hcwd).
    rewrite Hfiles, Hdir1, Hdir, Henc.
    destruct (os.encodable _ _); cbn [fst snd saved written files];
      (split; [done |]); rewrite Hfiles; cbn [saved files];
      apply insert_insert_eq. }
  destruct (os.encodable _ _); by apply Hsecond.
Qed.

Lemma second_upload_replaces_first_witness :
  let req1 := file_request "../notes.txt" (bytes "v1") in
  let req2 := file_request "../notes.txt" (bytes "v2") in
  (POST_upload req2 (POST_upload req1 sample_store).2).1
  = (POST_upload req2 sample_store).1
  ∧ files (POST_upload req2 (POST_upload req1 sample_store).2).2
    = files (POST_upload req2 sample_store).2.
Proof.
  exact (second_upload_replaces_first
           (file_request "../notes.txt" (bytes "v1"))
           (file_request "../notes.txt" (bytes "v2"))
           {| filename := "../notes.txt"; stream := bytes "v1" |}
           {| filename := "../notes.txt"; stream := bytes "v2" |}
           sample_store eq_refl eq_refl eq_refl).
Defined.



(** X11. Only the first part of the field [file] counts: a request
    with further parts, in that field or in others, is handled exactly
    as the request that carries that one part alone. *)
Theorem upload_uses_first_file_part (req : Request) (file : FileStorage)
    (s : state) :
  files_getitem "file" (request_files req) = Some file →
  POST_upload req s = POST_upload (file_request (filename file) (stream file)) s.
Proof.
  intros Hget.
  assert (files_getitem "file"
            (request_files (file_request (filename file) (stream file)))
          = Some file) as Hget' by (by destruct file).
  destruct (decide (filename file = "")) as [Hnil|Hname].
  - by rewrite (POST_upload_no_name req file s),
      (POST_upload_no_name _ file s).
  - by rewrite (POST_upload_spec req file s),
      (POST_upload_spec _ file s Hget').
Qed.

Lemma upload_uses_first_file_part_witness :
  let first := {| filename := "a.txt"; stream := bytes "a" |} in
  let req := {| request_files :=
                  [("avatar", {| filename := "me.png"; stream := bytes "p" |});
                   ("file", first);
                   ("file", {| filename := "b.txt"; stream := bytes "b" |})] |} in
  POST_upload req sample_store
  = POST_upload (file_request "a.txt" (bytes "a")) sample_store.
Proof.
  exact (upload_uses_first_file_part
           {| request_files :=
                [("avatar", {| filename := "me.png"; stream := bytes "p" |});
                 ("file", {| filename := "a.txt"; stream := bytes "a" |});
                 ("file", {| filename := "b.txt"; stream := bytes "b" |})] |}
           {| filename := "a.txt"; stream := bytes "a" |}
           sample_store eq_refl).
Defined.

(** ** Further properties of the download and listing handlers *)

(** X12. In a directory tree without symbolic links, whatever a
    download serves is a regular file that lies in the storage directory
    or below it, at a path made of proper names only: a 200 answer
    carries the bytes of such a file. *)
Theorem download_serves_only_from_storage (root f : string) (s s' : state)
    (r : response) :
  wf s → GET_file root f s = (r, s') → status r = 200 →
  ∃ names c dn, names ≠ [] ∧ Forall valid_name names
                ∧ files s !! (cwd s ++ names) = Some (File c)
                ∧ r = Response 200 (Attachment dn c).
Proof. apply GET_file_confined. Qed.

Lemma download_serves_only_from_storage_witness :
  wf sample_store
  ∧ GET_file "/app" "docs/../docs/a.txt" sample_store
    = (Response 200 (Attachment "a.txt" (bytes "a")), sample_store)
  ∧ ∃ names c dn, names ≠ [] ∧ Forall valid_name names
                  ∧ files sample_store !! (cwd sample_store ++ names)
                    = Some (File c)
                  ∧ Response 200 (Attachment "a.txt" (bytes "a"))
                    = Response 200 (Attachment dn c).
Proof.
  assert (GET_file "/app" "docs/../docs/a.txt" sample_store
          = (Response 200 (Attachment "a.txt" (bytes "a")), sample_store))
    as Hget by (by vm_compute).
  split; [exact sample_store_wf |]. split; [exact Hget |].
  exact (download_serves_only_from_storage "/app" "docs/../docs/a.txt"
           sample_store sample_store _ sample_store_wf Hget eq_refl).
Defined.

(** X13. A download whose filename is absolute, or is [..], or starts
    with [../], is answered 404 and changes nothing, wherever that
    name would lead, also when it leads back into the storage
    directory. *)
Theorem download_rejects_absolute_and_parent (root f : string) (s : state) :
  posixpath.isabs f = true ∨ f = ".." ∨ Str.startswith f "../" = true →
  GET_file root f s = (Response 404 DefaultNotFound, s).
Proof.
  intros Hf. unfold GET_file, dispatch.
  by rewrite get_file_spec, safe_join_None.
Qed.

Lemma download_rejects_absolute_and_parent_witness :
  Str.startswith "../store/notes.txt" "../" = true
  ∧ os.is_regular sample_store
      (posixpath.join (os.getcwd_string sample_store) "../store/notes.txt")
    = true
  ∧ GET_file "/app" "../store/notes.txt" sample_store
    = (Response 404 DefaultNotFound, sample_store).
Proof.
  split; [by vm_compute |]. split; [by vm_compute |].
  apply (download_rejects_absolute_and_parent "/app" "../store/notes.txt"
           sample_store).
  right. right. by vm_compute.
Defined.

(** X14. A download sees the filename through its normal form only:
    for a non-empty filename, the answer is the answer for the
    filename normalised as [posixpath.normpath] does. *)
Theorem download_of_normal_form (root f : string) (s : state) :
  f ≠ "" →
  GET_file root (posixpath.normpath f) s = GET_file root f s.
Proof.
  intros Hf. unfold GET_file, dispatch.
  by rewrite !get_file_spec, safe_join_normpath.
Qed.

Lemma download_of_normal_form_witness :
  posixpath.normpath "./docs//../notes.txt/" = "notes.txt"
  ∧ GET_file "/app" (posixpath.normpath "./docs//../notes.txt/") sample_store
    = GET_file "/app" "./docs//../notes.txt/" sample_store.
Proof.
  split; [by vm_compute |].
  by apply (download_of_normal_form "/app" "./docs//../notes.txt/"
              sample_store).
Defined.







(** ** What the upload handler does when the system refuses *)

(** X18. A filename with a NUL byte is refused before anything is
    opened: the answer is 500 and nothing is changed. *)
Theorem upload_null_byte_500 (req : Request) (file : FileStorage)
    (s : state) :
  files_getitem "file" (request_files req) = Some file →
  os.has_nul (filename file) = true →
  POST_upload req s = (Response 500 DefaultServerError, s).
Proof.
  intros Hget Hnul.
  assert (filename file ≠ "") as Hname by (by intros Heq; rewrite Heq in Hnul).
  rewrite (POST_upload_spec req file s Hget Hname).
  unfold os.resolve, os.path_ok.
  by rewrite (has_nul_join_path _ _ Hnul), andb_false_r.
Qed.

Lemma upload_null_byte_500_witness :
  let name := String "a" (String Ascii.zero "b") in
  os.has_nul name = true
  ∧ POST_upload (file_request name (bytes "x")) sample_store
    = (Response 500 DefaultServerError, sample_store).
Proof.
  split; [by vm_compute |].
  exact (upload_null_byte_500
           (file_request (String "a" (String Ascii.zero "b")) (bytes "x"))
           {| filename := String "a" (String Ascii.zero "b");
              stream := bytes "x" |}
           sample_store eq_refl eq_refl).
Defined.

(** X19. A filename with a component of more than 255 bytes is
    refused, wherever the component stands and whatever the directory
    tree holds: the answer is 500 and nothing is changed. *)
Theorem upload_long_component_500 (req : Request) (file : FileStorage)
    (s : state) (c : string) :
  files_getitem "file" (request_files req) = Some file →
  c ∈ Str.split (filename file) → (os.NAME_MAX < String.length c)%nat →
  POST_upload req s = (Response 500 DefaultServerError, s).
Proof.
  intros Hget Hin Hlong.
  assert (filename file ≠ "") as Hname.
  { intros Heq. rewrite Heq in Hin. apply list_elem_of_singleton in Hin.
    subst c. cbn in Hlong. lia. }
  rewrite (POST_upload_spec req file s Hget Hname).
  unfold os.resolve. destruct (os.path_ok _); [|done].
  rewrite (follow_long_component _ _ _ _ c); [done | | done].
  by apply split_join_path.
Qed.

Lemma upload_long_component_500_witness :
  let name := "docs/" +:+ long_name 256 in
  long_name 256 ∈ Str.split name
  ∧ (os.NAME_MAX < String.length (long_name 256))%nat
  ∧ POST_upload (file_request name (bytes "x")) sample_store
    = (Response 500 DefaultServerError, sample_store).
Proof.
  assert (long_name 256 ∈ Str.split ("docs/" +:+ long_name 256)) as Hin
    by (apply (bool_decide_unpack _); by vm_compute).
  assert (os.NAME_MAX < String.length (long_name 256))%nat as Hlong
    by (apply (bool_decide_unpack _); by vm_compute).
  do 2 (split; [assumption |]).
  exact (upload_long_component_500
           (file_request ("docs/" +:+ long_name 256) (bytes "x"))
           {| filename := "docs/" +:+ long_name 256; stream := bytes "x" |}
           sample_store (long_name 256) eq_refl Hin Hlong).
Defined.


